(** * traceroutemap: the probing, parsing and risk-evaluation pipeline

    A shallow embedding of [traceroutemap.py].  Text is a Rocq [string]
    whose characters stand for the code points U+0000..U+00FF, with
    Python's character classes on that range.  Latencies are Python
    floats, IEEE 754 binary64 numbers: they are [spec_float] values
    and the arithmetic is that of [SpecFloat] at precision 53, with
    round to nearest even, overflow to infinity and subnormals.
    The operating system, the resolver and the geolocation provider are
    a [world] of answers that the functions consult; exceptions and log
    records are threaded through a small monad. *)

From Stdlib Require Import Ascii String ZArith Lia.
From Stdlib Require Import Floats.SpecFloat.
From stdpp Require Import base list strings gmap.

Local Open Scope string_scope.
Local Open Scope nat_scope.
Local Open Scope list_scope.

(** ** Exceptions *)

Inductive exn : Set :=
| ValueError
| ZeroDivisionError
| CalledProcessError
| TimeoutExpired
| herror
| gaierror
| RequestException
| ConnectionError
| JSONDecodeError
| AttributeError
| FileNotFoundError
| PermissionError
| UnicodeDecodeError.

#[global] Instance exn_eq_dec : EqDecision exn.
Proof. solve_decision. Defined.

(** [isinstance e cls]: the classes are unrelated, except that
    [requests.ConnectionError] and [requests.JSONDecodeError] (raised by
    [response.json()] since requests 2.27) derive from
    [requests.RequestException]. *)
Definition isinstance (e cls : exn) : bool :=
  bool_decide (e = cls)
  || match cls, e with
     | RequestException, (ConnectionError | JSONDecodeError) => true
     | _, _ => false
     end.

Inductive result (A : Type) : Type :=
| Ok (a : A)
| Raise (e : exn).
Arguments Ok {A} a.
Arguments Raise {A} e.

#[global] Instance result_ret : MRet result := λ A a, Ok a.

#[global] Instance result_bind : MBind result := λ A B f r,
  match r with
  | Ok a => f a
  | Raise e => Raise e
  end.

(** ** Python's [str] methods on code points below 256 *)

Module Py.

Definition code (c : ascii) : N := N_of_ascii c.

(** [str.isspace] of one character. *)
Definition isspace (c : ascii) : bool :=
  let n := code c in
  ((9 <=? n) && (n <=? 13) || (28 <=? n) && (n <=? 32)
   || (n =? 133) || (n =? 160))%N.

(** The line boundaries of [str.splitlines]. *)
Definition is_linebreak (c : ascii) : bool :=
  let n := code c in
  ((10 <=? n) && (n <=? 13) || (28 <=? n) && (n <=? 30) || (n =? 133))%N.

(** The characters [int] and [float] read as decimal digits. *)
Definition is_decimal (c : ascii) : bool :=
  let n := code c in ((48 <=? n) && (n <=? 57))%N.

(** [str.isdigit] of one character: the decimal digits and the
    superscripts U+00B2, U+00B3, U+00B9. *)
Definition isdigit_char (c : ascii) : bool :=
  let n := code c in
  (is_decimal c || (n =? 178) || (n =? 179) || (n =? 185))%N.

Definition snoc (s : string) (c : ascii) : string := (s +:+ String c "").

Definition is_empty (s : string) : bool :=
  match s with "" => true | _ => false end.

Fixpoint forallb_str (p : ascii -> bool) (s : string) : bool :=
  match s with
  | "" => true
  | String c s' => p c && forallb_str p s'
  end.

(** [s.isdigit()]: at least one character, all of them digits. *)
Definition isdigit (s : string) : bool :=
  negb (is_empty s) && forallb_str isdigit_char s.

(** [s.splitlines()]; [cur] is the line being read. *)
Fixpoint splitlines_from (cur : string) (s : string) : list string :=
  match s with
  | "" => if is_empty cur then [] else [cur]
  | String c s' =>
      if is_linebreak c then
        cur :: splitlines_from ""
                 (match s' with
                  | String d s'' =>
                      if ((code c =? 13) && (code d =? 10))%N then s'' else s'
                  | "" => s'
                  end)
      else splitlines_from (snoc cur c) s'
  end.

Definition splitlines (s : string) : list string := splitlines_from "" s.

(** [s.split()]: the maximal runs of non-whitespace characters. *)
Fixpoint split_from (cur : string) (s : string) : list string :=
  match s with
  | "" => if is_empty cur then [] else [cur]
  | String c s' =>
      if isspace c then
        if is_empty cur then split_from "" s' else cur :: split_from "" s'
      else split_from (snoc cur c) s'
  end.

Definition split (s : string) : list string := split_from "" s.

(** [s.split(sep)] for a one-character separator; empty pieces are kept. *)
Fixpoint split_on_from (sep : ascii) (cur : string) (s : string) : list string :=
  match s with
  | "" => [cur]
  | String c s' =>
      if Ascii.eqb c sep then cur :: split_on_from sep "" s'
      else split_on_from sep (snoc cur c) s'
  end.

Definition split_on (sep : ascii) (s : string) : list string :=
  split_on_from sep "" s.

(** [s.replace(c, '', 1)]: drop the first occurrence of [c]. *)
Fixpoint remove_first (c : ascii) (s : string) : string :=
  match s with
  | "" => ""
  | String d s' => if Ascii.eqb d c then s' else String d (remove_first c s')
  end.

(** [sep.join(l)]. *)
Fixpoint join (sep : string) (l : list string) : string :=
  match l with
  | [] => ""
  | [x] => x
  | x :: l' => x +:+ sep +:+ join sep l'
  end.

Definition digit_value (c : ascii) : Z := Z.of_N (code c) - 48.

(** The number written by a run of decimal digits, read after [acc]. *)
Fixpoint decimal_value (acc : Z) (s : string) : Z :=
  match s with
  | "" => acc
  | String c s' => decimal_value (10 * acc + digit_value c) s'
  end.

(** CPython's default bound on the number of digits [int] converts. *)
Definition int_max_str_digits : nat := 4300.

(** [int(s)] on the strings that reach it, those with [s.isdigit()]:
    a run of decimal digits is its value, unless it is longer than
    the bound; a superscript digit is not a literal. *)
Definition int (s : string) : result Z :=
  if negb (is_empty s) && forallb_str is_decimal s
     && (String.length s <=? int_max_str_digits)
  then Ok (decimal_value 0 s)
  else Raise ValueError.

(** The number of characters after the first ['.'], if there is one. *)
Fixpoint digits_after_dot (s : string) : nat :=
  match s with
  | "" => 0
  | String c s' => if Ascii.eqb c "." then String.length s' else digits_after_dot s'
  end.

(** *** Floats *)

Definition prec : Z := 53.
Definition emax : Z := 1024.

(** [x + y] and [x / y] on floats. *)
Definition fadd : spec_float → spec_float → spec_float := SFadd prec emax.
Definition fdiv : spec_float → spec_float → spec_float := SFdiv prec emax.

(** The float nearest to [n / 10^k], for [0 ≤ n]: the quotient of the
    two integers, rounded once. *)
Definition float_of_decimal (n : Z) (k : nat) : spec_float :=
  match n with
  | Zpos p =>
      fdiv (S754_finite false p 0)
           (S754_finite false (Z.to_pos (10 ^ Z.of_nat k)) 0)
  | _ => S754_zero false
  end.

(** [float(s)] on the strings that reach it, those for which
    [s.replace('.', '', 1).isdigit()]: decimal digits around at most
    one point convert to the nearest float, a superscript digit is not
    a literal. *)
Definition float (s : string) : result spec_float :=
  let digits := remove_first "." s in
  if negb (is_empty digits) && forallb_str is_decimal digits
  then Ok (float_of_decimal (decimal_value 0 digits) (digits_after_dot s))
  else Raise ValueError.

(** A Python number: an [int] or a [float]. *)
Inductive number : Set :=
| Int (z : Z)
| Float (f : spec_float).

(** [float(x)] of a number; an [int] is rounded to the nearest float. *)
Definition to_float (x : number) : spec_float :=
  match x with
  | Int z => binary_normalize prec emax z 0 false
  | Float f => f
  end.

(** [x + y]: exact on two [int]s, in floats otherwise. *)
Definition add (x y : number) : number :=
  match x, y with
  | Int a, Int b => Int (a + b)
  | _, _ => Float (fadd (to_float x) (to_float y))
  end.

(** [sum(l)] for a list of floats: the [int] 0 for the empty list,
    otherwise the items added from left to right, starting from 0
    (the plain loop of CPython before 3.12). *)
Definition sum (l : list spec_float) : number :=
  foldl (λ acc f, add acc (Float f)) (Int 0) l.

(** [float(n)] for the length [n] of a list: exact, a length being
    far below 2^53. *)
Definition float_of_nat (n : nat) : spec_float :=
  match n with
  | O => S754_zero false
  | S _ => S754_finite false (Pos.of_nat n) 0
  end.

(** [x / n] for a number [x] that is a float or the [int] 0 and a
    length [n]: it raises on [n = 0] and is a float otherwise. *)
Definition truediv (x : number) (n : nat) : result number :=
  match n with
  | O => Raise ZeroDivisionError
  | S _ => Ok (Float (fdiv (to_float x) (float_of_nat n)))
  end.

(** [0 <= x]. *)
Definition nonneg (x : number) : bool :=
  match x with
  | Int z => (0 <=? z)%Z
  | Float f => SFleb (S754_zero false) f
  end.

End Py.

(** ** Log records *)

Inductive level : Set := INFO | WARNING | ERROR.

(** Values decoded from JSON, as [response.json()] returns them. *)
#[warnings="-register-all"]
Inductive pyval : Type :=
| PNone
| PBool (b : bool)
| PInt (z : Z)
| PFloat (f : spec_float)
| PStr (s : string)
| PList (l : list pyval)
| PDict (d : gmap string pyval).

(** One constructor per message template of the source, with the
    values its f-string formats. *)
Inductive event : Type :=
| StartingTraceroute (site : string)
| TracerouteFailed (site : string)
| MonitoringAnomalies (ip : option string) (latency : Py.number)
    (hostname : option string)
| SecurityAlert (country : pyval)
| ThreatDetected (ip : option string)
| GeolocationFailed (ip : option string).

Definition log_record : Type := level * event.

(** ** Computations that log and may raise *)

Definition M (A : Type) : Type := list log_record * result A.

#[global] Instance M_ret : MRet M := λ A a, ([], Ok a).

#[global] Instance M_bind : MBind M := λ A B f m,
  match m with
  | (l, Ok a) => let '(l', r) := f a in (l ++ l', r)
  | (l, Raise e) => (l, Raise e)
  end.

Definition raise {A} (e : exn) : M A := ([], Raise e).

Definition lift {A} (r : result A) : M A := ([], r).

Definition logging (lv : level) (ev : event) : M unit := ([(lv, ev)], Ok tt).

(** [try: body except cls: handler], for an exception class [cls]. *)
Definition try_except {A} (body : M A) (cls : exn) (handler : M A) : M A :=
  match body with
  | (l, Raise e) =>
      if isinstance e cls
      then let '(l', r) := handler in (l ++ l', r)
      else (l, Raise e)
  | done => done
  end.

Definition logs {A} (m : M A) : list log_record := m.1.
Definition outcome_of {A} (m : M A) : result A := m.2.

(** ** The world outside the program *)

(** Why a child process cannot be started. *)
Inductive spawn_error : Set :=
| NoSuchFile
| NotPermitted.

(** What [subprocess.run(..., timeout=30, check=True, text=True)]
    meets: the child cannot be started; or it ends within the timeout
    with a return code and its standard output, which decodes to text
    or does not; or it is still running after 30 seconds. *)
Inductive process_answer : Type :=
| NotStarted (why : spawn_error)
| Exited (returncode : Z) (stdout : string)
| Undecodable
| StillRunning.

(** What [socket.gethostbyaddr] meets: a primary host name, a failed
    lookup ([h_errno]), or an argument that is no address. *)
Inductive dns_answer : Type :=
| HostName (name : string)
| LookupFailed
| NoAddress.

(** What [requests.get] meets: no response at all, or a response with
    a status code and a body, which decodes to a JSON value (an
    object, an array, a string, a number, a boolean or null) or does
    not decode. *)
Inductive http_answer : Type :=
| NoResponse
| Response (status_code : Z) (body : option pyval).

Record world : Type := {
  traceroute_n : string → process_answer;
  reverse_dns : string → dns_answer;
  http_get : string → http_answer;
}.

(** [subprocess.run(['traceroute', '-n', site], capture_output=True,
    timeout=30, check=True, text=True)], returning [result.stdout]. *)
Definition subprocess_run (w : world) (site : string) : M string :=
  match traceroute_n w site with
  | NotStarted NoSuchFile => raise FileNotFoundError
  | NotStarted NotPermitted => raise PermissionError
  | StillRunning => raise TimeoutExpired
  | Undecodable => raise UnicodeDecodeError
  | Exited rc out => if bool_decide (rc = 0%Z) then mret out else raise CalledProcessError
  end.

(** [socket.gethostbyaddr(ip)[0]]. *)
Definition gethostbyaddr (w : world) (ip : string) : M string :=
  match reverse_dns w ip with
  | HostName name => mret name
  | LookupFailed => raise herror
  | NoAddress => raise gaierror
  end.

(** ** Risk evaluation *)

(** [str(ip)] inside an f-string, for a value that may be [None]. *)
Definition format_ip (ip : option string) : string := default "None" ip.

Definition geolocation_url (ip : option string) : string :=
  "http://ip-api.com/json/" +:+ format_ip ip.

Definition get_geolocation (w : world) (ip : option string) : M pyval :=
  try_except
    (match http_get w (geolocation_url ip) with
     | NoResponse => raise ConnectionError
     | Response status body =>
         if bool_decide (status = 200%Z)
         then match body with
              | Some v => mret v
              | None => raise JSONDecodeError
              end
         else mret (PDict ∅)
     end)
    RequestException
    (logging ERROR (GeolocationFailed ip);; mret (PDict ∅)).

Definition check_ip_threat_level (ip : option string) : bool := false.

(** [v == s] for a string [s]. *)
Definition py_eq_str (v : pyval) (s : string) : bool :=
  match v with
  | PStr t => bool_decide (t = s)
  | _ => false
  end.

(** [v in l] for a list of strings [l]. *)
Definition py_in (v : pyval) (l : list string) : bool := existsb (py_eq_str v) l.
Arguments py_in : simpl never.

Definition watch_list : list string := ["China"; "Russia"].

(** The truth value of a JSON value in an [if]. *)
Definition truthy (v : pyval) : bool :=
  match v with
  | PNone => false
  | PBool b => b
  | PInt z => negb (z =? 0)%Z
  | PFloat f => negb (SFeqb f (S754_zero false))
  | PStr s => negb (Py.is_empty s)
  | PList l => match l with [] => false | _ :: _ => true end
  | PDict d => negb (bool_decide (d = ∅))
  end.

(** [v.get(key, dflt)]: only an object has the method. *)
Definition py_get (v : pyval) (key : string) (dflt : pyval) : result pyval :=
  match v with
  | PDict d => Ok (default dflt (d !! key))
  | _ => Raise AttributeError
  end.

Definition detect_anomalies_and_threats
    (w : world) (last_ip : option string) (latency : Py.number)
    (resolved_name : option string) : M unit :=
  logging INFO (MonitoringAnomalies last_ip latency resolved_name);;
  location_info ← get_geolocation w last_ip;
  (if truthy location_info then
     country ← lift (py_get location_info "country" (PStr ""));
     if py_in country watch_list
     then logging WARNING (SecurityAlert country)
     else mret tt
   else mret tt);;
  if check_ip_threat_level last_ip
  then logging WARNING (ThreatDetected last_ip)
  else mret tt.

(** ** Hop parsing *)

(** One responsive hop: the address and the latency samples of its line. *)
Record hop : Type := { hop_ip : string; hop_latencies : list spec_float }.

(** [part.isdigit() and 0 <= int(part) <= 255]. *)
Definition octet_ok (part : string) : result bool :=
  if Py.isdigit part
  then n ← Py.int part; mret (bool_decide (0 ≤ n ≤ 255)%Z)
  else mret false.

(** [all(... for part in parts)]: the generator stops at the first
    part that fails. *)
Fixpoint all_octets (parts : list string) : result bool :=
  match parts with
  | [] => mret true
  | part :: rest =>
      b ← octet_ok part;
      if b : bool then all_octets rest else mret false
  end.

(** The test of line 57 on the second field. *)
Definition is_valid_ip (ip : string) : result bool :=
  all_octets (Py.split_on "." ip).

(** [[float(lat) for lat in fields if lat.replace('.', '', 1).isdigit()]]. *)
Fixpoint read_latencies (fields : list string) : result (list spec_float) :=
  match fields with
  | [] => mret []
  | lat :: rest =>
      if Py.isdigit (Py.remove_first "." lat)
      then x ← Py.float lat; xs ← read_latencies rest; mret (x :: xs)
      else read_latencies rest
  end.

(** One pass of the loop body up to the three updates: the hop a line
    contributes, if it contributes one. *)
Definition hop_of_line (line : string) : result (option hop) :=
  let fields := Py.split line in
  match fields with
  | _ :: ip :: samples =>
      if bool_decide (ip ≠ "*") then
        valid ← is_valid_ip ip;
        if valid : bool then
          latencies ← read_latencies samples;
          mret (Some {| hop_ip := ip; hop_latencies := latencies |})
        else mret None
      else mret None
  | _ => mret None
  end.

(** The variables the loop updates. *)
Record trace_state : Type := {
  path : list string;
  total_latency : Py.number;
  last_responded_ip : option string;
}.

Definition initial_state : trace_state :=
  {| path := []; total_latency := Py.Int 0; last_responded_ip := None |}.

Definition record_hop (st : trace_state) (h : hop) : trace_state :=
  {| path := path st ++ [hop_ip h];
     total_latency := Py.add (total_latency st) (Py.sum (hop_latencies h));
     last_responded_ip := Some (hop_ip h) |}.

(** [for line in lines: ...]. *)
Fixpoint scan_lines (st : trace_state) (lines : list string) : result trace_state :=
  match lines with
  | [] => mret st
  | line :: rest =>
      h ← hop_of_line line;
      scan_lines (match h with Some h => record_hop st h | None => st end) rest
  end.

(** The hop records of a raw output, in line order: the Hop Parser's
    view of the same loop. *)
Fixpoint hops_of_lines (lines : list string) : result (list hop) :=
  match lines with
  | [] => mret []
  | line :: rest =>
      h ← hop_of_line line;
      hs ← hops_of_lines rest;
      mret (match h with Some h => h :: hs | None => hs end)
  end.

Definition parse (raw : string) : result (list hop) :=
  hops_of_lines (drop 1 (Py.splitlines raw)).

(** ** The pipeline for one target *)

Record outcome : Type := {
  site : string;
  hop_count : nat;
  avg_latency : Py.number;
  unique_path_count : nat;
  geo_ip_data : string;
  fqdn : option string;
}.

(** Lines 68-72: the name of the last responsive address. *)
Definition resolve (w : world) (last_ip : option string) : M (option string) :=
  match last_ip with
  | Some ip =>
      if negb (Py.is_empty ip)
      then try_except (name ← gethostbyaddr w ip; mret (Some name))
                      herror
                      (mret (Some ip))
      else mret None
  | None => mret None
  end.

Definition perform_traceroute (w : world) (target : string) : M (option outcome) :=
  try_except
    (logging INFO (StartingTraceroute target);;
     stdout ← subprocess_run w target;
     let lines := Py.splitlines stdout in
     st ← lift (scan_lines initial_state (drop 1 lines));
     let hop_count := length (path st) in
     avg_latency ← lift (if bool_decide (0 < hop_count)
                         then Py.truediv (total_latency st) hop_count
                         else Ok (Py.Int 0));
     let unique_path_count := size (list_to_set (path st) : gset string) in
     let geo_ip_data := Py.join "; " (path st) in
     fqdn ← resolve w (last_responded_ip st);
     detect_anomalies_and_threats w (last_responded_ip st) avg_latency fqdn;;
     mret (Some {| site := target; hop_count := hop_count;
                   avg_latency := avg_latency;
                   unique_path_count := unique_path_count;
                   geo_ip_data := geo_ip_data; fqdn := fqdn |}))
    CalledProcessError
    (logging ERROR (TracerouteFailed target);; mret None).

(** ** The batch *)

Definition TOP_WEBSITES : list string :=
  ["google.com"; "youtube.com"; "facebook.com"; "twitter.com";
   "instagram.com"; "linkedin.com"; "wikipedia.org"; "amazon.com";
   "yahoo.com"; "netflix.com"].

(** What a run leaves behind: the rows appended to the database, in
    order, whether the report was rendered, and how [main] ended. *)
Record run : Type := {
  rows : list outcome;
  reported : bool;
  ended : result unit;
}.

(** [cursor.executemany("INSERT ...", results)] on the rows stored so
    far. *)
Definition update_database (db : list outcome) (results : list outcome)
  : list outcome := db ++ results.

(** [for future in futures: result = future.result(); ...]: a future
    hands back what its task returned, or raises what it raised. *)
Fixpoint collect (futures : list (M (option outcome))) (db : list outcome)
  : list outcome * result unit :=
  match futures with
  | [] => (db, Ok tt)
  | future :: rest =>
      match outcome_of future with
      | Raise e => (db, Raise e)
      | Ok None => collect rest db
      | Ok (Some row) => collect rest (update_database db [row])
      end
  end.

(** Every target is submitted before the first result is read; the
    tasks share nothing, so a task's result is that of its pipeline. *)
Definition main (w : world) : run :=
  let futures := map (perform_traceroute w) TOP_WEBSITES in
  match collect futures [] with
  | (db, Ok _) => {| rows := db; reported := true; ended := Ok tt |}
  | (db, Raise e) => {| rows := db; reported := false; ended := Raise e |}
  end.

(** ** Notions the statements use *)

(** The value the geolocation lookup hands to its caller. *)
Definition located (a : http_answer) : pyval :=
  match a with
  | Response status (Some v) => if bool_decide (status = 200%Z) then v else PDict ∅
  | _ => PDict ∅
  end.

(** The alert of lines 87-90 for a located value [v]. *)
Definition country_alert (v : pyval) : list log_record :=
  if truthy v then
    match py_get v "country" (PStr "") with
    | Ok country =>
        if py_in country watch_list then [(WARNING, SecurityAlert country)] else []
    | Raise _ => []
    end
  else [].

(** How lines 87-90 end for a located value [v]: they raise when [v]
    is true in an [if] and is no object. *)
Definition risk_outcome (v : pyval) : result unit :=
  if truthy v then
    match v with
    | PDict _ => Ok tt
    | _ => Raise AttributeError
    end
  else Ok tt.

(** Every latency sample of a path, in order. *)
Definition samples (hops : list hop) : list spec_float :=
  concat (hop_latencies <$> hops).

(** The total the loop reaches for a path: the sums of the hops, each
    added to the total in hop order. *)
Definition total_of (hops : list hop) : Py.number :=
  foldl (λ total h, Py.add total (Py.sum (hop_latencies h))) (Py.Int 0) hops.

(** The name lines 68-72 give to an address [ip] that is not empty. *)
Definition resolved (w : world) (ip : string) : result (option string) :=
  match reverse_dns w ip with
  | HostName name => Ok (Some name)
  | LookupFailed => Ok (Some ip)
  | NoAddress => Raise gaierror
  end.

(** The metrics of lines 63-66 for a path of hops. *)
Definition mean_latency (hops : list hop) : Py.number :=
  match Py.truediv (total_of hops) (length hops) with
  | Ok avg => avg
  | Raise _ => Py.Int 0
  end.

Definition outcome_for (target : string) (hops : list hop)
    (name : option string) : outcome :=
  {| site := target;
     hop_count := length hops;
     avg_latency := mean_latency hops;
     unique_path_count := size (list_to_set (hop_ip <$> hops) : gset string);
     geo_ip_data := Py.join "; " (hop_ip <$> hops);
     fqdn := name |}.

(** A line is unresponsive when it has fewer than two fields, or its
    second field is the marker, or the test of line 57 rejects it. *)
Definition unresponsive (line : string) : bool :=
  match Py.split line with
  | _ :: field :: _ =>
      bool_decide (field = "*")
      || match is_valid_ip field with
         | Ok false => true
         | _ => false
         end
  | _ => true
  end.

(** The spec's words for a valid address part: an integer in [0,255],
    written in decimal digits. *)
Definition octet (part : string) : bool :=
  negb (Py.is_empty part) && Py.forallb_str Py.is_decimal part
  && bool_decide (0 ≤ Py.decimal_value 0 part ≤ 255)%Z.

(** The spec's words for a valid address: a dotted quad, four such
    parts separated by dots. *)
Definition dotted_quad (ip : string) : bool :=
  let parts := Py.split_on "." ip in
  bool_decide (length parts = 4) && forallb octet parts.

(** Text in which every character is below U+0080. *)
Definition plain (s : string) : bool :=
  Py.forallb_str (λ c, (Py.code c <? 128)%N) s.

(** Lines short enough for [int] to convert any run of digits in them. *)
Definition short_lines (lines : list string) : bool :=
  forallb (λ line, String.length line <=? Py.int_max_str_digits) lines.

(** A piece cut out of a text keeps a property [p] of its characters
    and is no longer than [n]. *)
Definition piece_of (p : ascii → bool) (n : nat) (f : string) : Prop :=
  Py.forallb_str p f = true ∧ String.length f ≤ n.

(** The characters of a dotted address: decimal digits and the dot. *)
Definition address_char (c : ascii) : bool := Py.is_decimal c || Ascii.eqb c ".".

(** How often the character [c] occurs in [s]. *)
Fixpoint count_char (c : ascii) (s : string) : nat :=
  match s with
  | "" => 0
  | String d s' => (if Ascii.eqb d c then 1 else 0) + count_char c s'
  end.

(** A computation that ended without raising. *)
Definition returned {A} (r : result A) : bool :=
  match r with
  | Ok _ => true
  | Raise _ => false
  end.

(** The outcomes the traces of [targets] return, in order. *)
Definition outcomes_of (w : world) (targets : list string) : list outcome :=
  omap (λ target, match outcome_of (perform_traceroute w target) with
                  | Ok row => row
                  | Raise _ => None
                  end) targets.

(** How the risk evaluation of line 75 ends for the address [last_ip]. *)
Definition evaluated (w : world) (last_ip : option string) : result unit :=
  risk_outcome (located (http_get w (geolocation_url last_ip))).

(** ** Decidable equality, for evaluating the model on concrete inputs *)

#[global] Instance result_eq_dec `{EqDecision A} : EqDecision (result A).
Proof. solve_decision. Defined.

#[global] Instance spec_float_eq_dec : EqDecision spec_float.
Proof. solve_decision. Defined.

#[global] Instance number_eq_dec : EqDecision Py.number.
Proof. solve_decision. Defined.

#[global] Instance hop_eq_dec : EqDecision hop.
Proof. solve_decision. Defined.

#[global] Instance trace_state_eq_dec : EqDecision trace_state.
Proof. solve_decision. Defined.

#[global] Instance outcome_eq_dec : EqDecision outcome.
Proof. solve_decision. Defined.

(** Closes an equation between closed terms by evaluating its decision. *)
Ltac by_evaluation := apply (bool_decide_unpack _); vm_compute; exact I.

(** ** Inputs of the scenarios *)

Definition LF : string := String "010" "".

(** The raw output of the spec's parsing scenario. *)
Definition scenario_output : string :=
  "traceroute to example.com (93.184.216.34), 30 hops max" +:+ LF +:+
  " 1  192.168.1.1  1.123 ms  1.045 ms  1.200 ms" +:+ LF +:+
  " 2  *" +:+ LF +:+
  " 3  10.0.0.5  5.5 ms 5.6 ms" +:+ LF.

(** The float nearest to [n / 10^k]: what the literal with the
    digits [n] and [k] of them after the point denotes. *)
Definition dec (n : Z) (k : nat) : spec_float := Py.float_of_decimal n k.

Definition scenario_hops : list hop :=
  [ {| hop_ip := "192.168.1.1";
       hop_latencies := [dec 1123 3; dec 1045 3; dec 1200 3] |};
    {| hop_ip := "10.0.0.5"; hop_latencies := [dec 55 1; dec 56 1] |} ].

(** A world in which every trace prints the scenario's output, no
    address has a reverse name, and every address is located in
    [country]. *)
Definition scenario_world (country : string) : world :=
  {| traceroute_n := λ _, Exited 0 scenario_output;
     reverse_dns := λ _, LookupFailed;
     http_get := λ _, Response 200 (Some (PDict {[ "country" := PStr country ]})) |}.

(** The outcome of the scenario in [scenario_world]. *)
Definition scenario_outcome : outcome :=
  {| site := "example.com"; hop_count := 2;
     avg_latency := Py.Float (dec 7234 3);
     unique_path_count := 2; geo_ip_data := "192.168.1.1; 10.0.0.5";
     fqdn := Some "10.0.0.5" |}.

(** A world whose provider answers 200 with an object that has no
    country. *)
Definition no_country_world : world :=
  {| traceroute_n := λ _, Exited 0 scenario_output;
     reverse_dns := λ _, LookupFailed;
     http_get := λ _, Response 200 (Some (PDict {[ "status" := PStr "fail" ]})) |}.

(** An output whose hop lines are all unresponsive. *)
Definition silent_output : string :=
  "traceroute to example.com (93.184.216.34), 30 hops max" +:+ LF +:+
  " 1  * * *" +:+ LF +:+
  " 2  *" +:+ LF +:+
  "" +:+ LF +:+
  " 4  300.1.1.1  2.0 ms" +:+ LF.

Definition silent_world : world :=
  {| traceroute_n := λ _, Exited 0 silent_output;
     reverse_dns := λ _, LookupFailed;
     http_get := λ _, NoResponse |}.

(** A raw output whose only hop line carries a five-part address. *)
Definition five_part_output : string :=
  "traceroute to example.com (93.184.216.34), 30 hops max" +:+ LF +:+
  " 1  1.2.3.4.5  1.0 ms" +:+ LF.

(** A world in which the trace of linkedin.com outlives the timeout
    and every other trace prints the scenario's output. *)
Definition timeout_world : world :=
  {| traceroute_n := λ target,
       if bool_decide (target = "linkedin.com") then StillRunning
       else Exited 0 scenario_output;
     reverse_dns := λ _, LookupFailed;
     http_get := λ _, Response 200 (Some (PDict {[ "country" := PStr "France" ]})) |}.

(** The same world, with linkedin.com's trace exiting with status 1
    instead. *)
Definition exit_world : world :=
  {| traceroute_n := λ target,
       if bool_decide (target = "linkedin.com") then Exited 1 ""
       else Exited 0 scenario_output;
     reverse_dns := λ _, LookupFailed;
     http_get := λ _, Response 200 (Some (PDict {[ "country" := PStr "France" ]})) |}.

(** A world like [scenario_world], in which every address has the
    reverse name edge.example.net. *)
Definition named_world : world :=
  {| traceroute_n := λ _, Exited 0 scenario_output;
     reverse_dns := λ _, HostName "edge.example.net";
     http_get := λ _, Response 200 (Some (PDict {[ "country" := PStr "France" ]})) |}.

(** A raw output whose only hop line carries a superscript two
    (U+00B2) as its second field. *)
Definition superscript_output : string :=
  "traceroute to example.com (93.184.216.34), 30 hops max" +:+ LF +:+
  " 1  " +:+ String "178" "" +:+ LF.

Definition superscript_world : world :=
  {| traceroute_n := λ _, Exited 0 superscript_output;
     reverse_dns := λ _, LookupFailed;
     http_get := λ _, NoResponse |}.

(** A raw output with one sample on the first hop and two on the
    second. *)
Definition rounding_output : string :=
  "traceroute to example.com (93.184.216.34), 30 hops max" +:+ LF +:+
  " 1  10.0.0.1  0.1 ms" +:+ LF +:+
  " 2  10.0.0.2  0.1 ms  1.0 ms" +:+ LF.

Definition rounding_hops : list hop :=
  [ {| hop_ip := "10.0.0.1"; hop_latencies := [dec 1 1] |};
    {| hop_ip := "10.0.0.2"; hop_latencies := [dec 1 1; dec 10 1] |} ].

Definition rounding_world : world :=
  {| traceroute_n := λ _, Exited 0 rounding_output;
     reverse_dns := λ _, LookupFailed;
     http_get := λ _, NoResponse |}.

(** The outcome of [rounding_output] in [rounding_world]; its average
    latency is the float 0.6000000000000001. *)
Definition rounding_outcome : outcome :=
  {| site := "example.com"; hop_count := 2;
     avg_latency := Py.Float (S754_finite false 5404319552844596 (-53));
     unique_path_count := 2; geo_ip_data := "10.0.0.1; 10.0.0.2";
     fqdn := Some "10.0.0.2" |}.

(** A world like [scenario_world], whose provider answers 200 with the
    JSON array [[1]]. *)
Definition array_world : world :=
  {| traceroute_n := λ _, Exited 0 scenario_output;
     reverse_dns := λ _, LookupFailed;
     http_get := λ _, Response 200 (Some (PList [PInt 1])) |}.

(** A raw output whose only hop line carries a two-part second
    field. *)
Definition two_part_output : string :=
  "traceroute to example.com (93.184.216.34), 30 hops max" +:+ LF +:+
  " 1  12.9  3.5 ms" +:+ LF.

Definition two_part_world : world :=
  {| traceroute_n := λ _, Exited 0 two_part_output;
     reverse_dns := λ _, LookupFailed;
     http_get := λ _, NoResponse |}.

(** * Properties *)

(** ** The monad *)

Lemma outcome_of_bind {A B} (m : M A) (f : A → M B) :
  outcome_of (m ≫= f) = outcome_of m ≫= (λ a, outcome_of (f a)).
Proof.
  destruct m as [l [a|e]]; simpl; [|done].
  unfold outcome_of. by destruct (f a).
Qed.

Lemma logs_bind_ok {A B} (m : M A) (f : A → M B) a :
  outcome_of m = Ok a → logs (m ≫= f) = logs m ++ logs (f a).
Proof.
  destruct m as [l [a'|e]]; simpl; intros [= ->].
  unfold logs. by destruct (f a).
Qed.

Lemma outcome_of_lift {A} (r : result A) : outcome_of (lift r) = r.
Proof. done. Qed.

Lemma outcome_of_logging lv ev : outcome_of (logging lv ev) = Ok tt.
Proof. done. Qed.

Lemma outcome_of_try {A} (body handler : M A) cls :
  outcome_of (try_except body cls handler) =
    match outcome_of body with
    | Ok a => Ok a
    | Raise e => if isinstance e cls then outcome_of handler else Raise e
    end.
Proof.
  destruct body as [l [a|e]]; simpl; [done|].
  destruct (isinstance e cls); [|done].
  unfold outcome_of. by destruct handler.
Qed.

(** ** Risk evaluation *)

Lemma get_geolocation_outcome w ip :
  outcome_of (get_geolocation w ip) = Ok (located (http_get w (geolocation_url ip))).
Proof.
  unfold get_geolocation, located.
  destruct (http_get w (geolocation_url ip)) as [|status [v|]]; simpl;
    try done; by case_bool_decide.
Qed.

Lemma get_geolocation_logs w ip :
  logs (get_geolocation w ip) = [] ∨
  logs (get_geolocation w ip) = [(ERROR, GeolocationFailed ip)].
Proof.
  unfold get_geolocation.
  destruct (http_get w (geolocation_url ip)) as [|status [v|]]; simpl;
    try (by right); case_bool_decide; simpl; auto.
Qed.

Lemma py_get_dict v key dflt :
  py_get v key dflt = match v with
                      | PDict d => Ok (default dflt (d !! key))
                      | _ => Raise AttributeError
                      end.
Proof. by destruct v. Qed.

Lemma detect_logs w ip latency name :
  logs (detect_anomalies_and_threats w ip latency name) =
    (INFO, MonitoringAnomalies ip latency name)
      :: logs (get_geolocation w ip)
      ++ country_alert (located (http_get w (geolocation_url ip))).
Proof.
  unfold detect_anomalies_and_threats.
  rewrite (logs_bind_ok _ _ tt) by done.
  rewrite (logs_bind_ok _ _ _ (get_geolocation_outcome w ip)).
  unfold country_alert, check_ip_threat_level.
  destruct (truthy _); [|done].
  destruct (py_get _ _ _) as [country|e]; [|reflexivity].
  cbn [lift mbind M_bind].
  destruct (py_in country watch_list); reflexivity.
Qed.

Lemma detect_outcome w ip latency name :
  outcome_of (detect_anomalies_and_threats w ip latency name) =
    risk_outcome (located (http_get w (geolocation_url ip))).
Proof.
  unfold detect_anomalies_and_threats.
  rewrite !outcome_of_bind, get_geolocation_outcome, outcome_of_logging.
  cbn [mbind result_bind]. rewrite outcome_of_bind.
  unfold risk_outcome, check_ip_threat_level.
  destruct (truthy _); [|done].
  rewrite outcome_of_bind, outcome_of_lift, py_get_dict.
  destruct (located _); try done.
  cbn [mbind result_bind]. by destruct (py_in _ _).
Qed.

Lemma py_in_watch_list c :
  py_in c watch_list = true ↔ c = PStr "China" ∨ c = PStr "Russia".
Proof.
  unfold py_in, watch_list, py_eq_str; simpl.
  destruct c as [| | | |s| |]; try (split; [done|intros [?|?]; done]).
  rewrite orb_false_r, orb_true_iff, !bool_decide_eq_true.
  split; [intros [->| ->]; auto|intros [[= ->]|[= ->]]; auto].
Qed.

Lemma country_alert_elem v r :
  r ∈ country_alert v ↔
    ∃ c d, r = (WARNING, SecurityAlert c) ∧ v = PDict d
           ∧ d !! "country" = Some c
           ∧ (c = PStr "China" ∨ c = PStr "Russia").
Proof.
  unfold country_alert. split.
  - destruct (truthy v); [|by intros ?%elem_of_nil].
    destruct v as [| | | | | |d]; try (by intros ?%elem_of_nil). simpl.
    destruct (d !! "country") as [c|] eqn:Hc; simpl.
    + destruct (py_in c watch_list) eqn:Hin; [|by intros ?%elem_of_nil].
      intros ->%list_elem_of_singleton. exists c, d.
      by apply py_in_watch_list in Hin.
    + destruct (py_in (PStr "") watch_list) eqn:Hin; [|by intros ?%elem_of_nil].
      apply py_in_watch_list in Hin. by destruct Hin.
  - intros (c & d & -> & -> & Hc & Hw). simpl.
    rewrite bool_decide_false by (intros ->; by rewrite lookup_empty in Hc).
    simpl. rewrite Hc; simpl. apply py_in_watch_list in Hw. rewrite Hw.
    by apply list_elem_of_singleton.
Qed.

Lemma get_geolocation_logs_no_alert w ip lv c :
  (lv, SecurityAlert c) ∉ logs (get_geolocation w ip).
Proof.
  destruct (get_geolocation_logs w ip) as [-> | ->].
  - apply not_elem_of_nil.
  - by intros [=]%list_elem_of_singleton.
Qed.

Lemma detect_alert_elem w ip latency name lv c :
  (lv, SecurityAlert c) ∈ logs (detect_anomalies_and_threats w ip latency name)
  ↔ (lv, SecurityAlert c) ∈ country_alert (located (http_get w (geolocation_url ip))).
Proof.
  rewrite detect_logs, elem_of_cons, elem_of_app. split; [|auto].
  intros [[=]|[Hg|Ha]]; [|done].
  by apply get_geolocation_logs_no_alert in Hg.
Qed.

Lemma detect_logs_elem w ip latency name r :
  r ∈ logs (detect_anomalies_and_threats w ip latency name) →
  r = (INFO, MonitoringAnomalies ip latency name)
  ∨ r = (ERROR, GeolocationFailed ip)
  ∨ ∃ c, r = (WARNING, SecurityAlert c).
Proof.
  rewrite detect_logs, elem_of_cons, elem_of_app.
  intros [->|[Hr|Hr]]; [by left| |].
  - destruct (get_geolocation_logs w ip) as [Hl|Hl]; rewrite Hl in Hr.
    + by apply elem_of_nil in Hr.
    + apply list_elem_of_singleton in Hr. by right; left.
  - apply country_alert_elem in Hr as (c & d & -> & _). right; right. eauto.
Qed.

Lemma empty_location_quiet w ip latency name :
  located (http_get w (geolocation_url ip)) = PDict ∅ →
  outcome_of (detect_anomalies_and_threats w ip latency name) = Ok tt
  ∧ ∀ ev, (WARNING, ev) ∉ logs (detect_anomalies_and_threats w ip latency name).
Proof.
  intros Hloc. split; [by rewrite detect_outcome, Hloc|].
  intros ev Hin.
  pose proof (detect_logs_elem _ _ _ _ _ Hin) as [[=]|[[=]|[c [= ->]]]].
  apply detect_alert_elem in Hin. rewrite Hloc in Hin.
  by apply elem_of_nil in Hin.
Qed.

(** C7. For every address, also an absent one, [get_geolocation]
    returns and never raises: it hands back the decoded value of a
    200 response, and the empty object when the request fails, the
    status is not 200 or the body does not decode.  In each of these
    three cases the risk evaluation that called it ends normally and
    logs no warning; after a decoded 200 response it ends as the
    decoded value makes it end. *)
Theorem get_geolocation_never_raises w ip latency name :
  outcome_of (get_geolocation w ip) =
    Ok (match http_get w (geolocation_url ip) with
        | Response status (Some v) =>
            if bool_decide (status = 200%Z) then v else PDict ∅
        | Response _ None => PDict ∅
        | NoResponse => PDict ∅
        end)
  ∧ match http_get w (geolocation_url ip) with
    | Response status (Some v) =>
        if bool_decide (status = 200%Z)
        then outcome_of (detect_anomalies_and_threats w ip latency name) =
               risk_outcome v
        else outcome_of (detect_anomalies_and_threats w ip latency name) = Ok tt
             ∧ ∀ ev, (WARNING, ev)
                     ∉ logs (detect_anomalies_and_threats w ip latency name)
    | _ =>
        outcome_of (detect_anomalies_and_threats w ip latency name) = Ok tt
        ∧ ∀ ev, (WARNING, ev)
                ∉ logs (detect_anomalies_and_threats w ip latency name)
    end.
Proof.
  split.
  - rewrite get_geolocation_outcome. unfold located.
    by destruct (http_get w (geolocation_url ip)) as [|status [v|]].
  - pose proof (empty_location_quiet w ip latency name) as Hquiet.
    pose proof (detect_outcome w ip latency name) as Hout.
    unfold located in *.
    destruct (http_get w (geolocation_url ip)) as [|status [v|]];
      [by apply Hquiet| |by apply Hquiet].
    case_bool_decide; [done|by apply Hquiet].
Qed.

(** C5. The log of [detect_anomalies_and_threats] holds a warning
    that names the country [c] exactly when the geolocation lookup
    returned an object whose country is [c] and [c] is "China" or
    "Russia". *)
Theorem watch_list_alert_iff w ip latency name c :
  (WARNING, SecurityAlert c)
    ∈ logs (detect_anomalies_and_threats w ip latency name)
  ↔ (∃ d, outcome_of (get_geolocation w ip) = Ok (PDict d)
          ∧ d !! "country" = Some c)
    ∧ (c = PStr "China" ∨ c = PStr "Russia").
Proof.
  rewrite detect_alert_elem, country_alert_elem, get_geolocation_outcome.
  split.
  - intros (c' & d & [= <-] & -> & Hc & Hw). eauto.
  - intros [(d & [= ->] & Hc) Hw]. eauto 10.
Qed.

(** The two country scenarios of the spec. *)
Example russia_alert :
  logs (detect_anomalies_and_threats (scenario_world "Russia")
          (Some "10.0.0.5") (Py.Float (dec 7234 3)) (Some "10.0.0.5")) =
    [ (INFO, MonitoringAnomalies (Some "10.0.0.5") (Py.Float (dec 7234 3))
               (Some "10.0.0.5"));
      (WARNING, SecurityAlert (PStr "Russia")) ].
Proof. vm_compute. reflexivity. Qed.

Example france_no_alert :
  logs (detect_anomalies_and_threats (scenario_world "France")
          (Some "10.0.0.5") (Py.Float (dec 7234 3)) (Some "10.0.0.5")) =
    [ (INFO, MonitoringAnomalies (Some "10.0.0.5") (Py.Float (dec 7234 3))
               (Some "10.0.0.5")) ].
Proof. vm_compute. reflexivity. Qed.

(** A 200 answer that is an array makes the risk evaluation raise. *)
Example array_answer_raises :
  outcome_of (detect_anomalies_and_threats array_world
                (Some "10.0.0.5") (Py.Float (dec 7234 3)) (Some "10.0.0.5")) =
    Raise AttributeError.
Proof. vm_compute. reflexivity. Qed.

(** C10. When the lookup returns a non-empty object without a
    ['country'] field, the country read from it is the empty string,
    the empty string is not on the watch-list, and no record of the
    log is a country alert. *)
Theorem missing_country_no_alert w ip latency name d :
  outcome_of (get_geolocation w ip) = Ok (PDict d) →
  d ≠ ∅ →
  d !! "country" = None →
  default (PStr "") (d !! "country") = PStr ""
  ∧ py_in (PStr "") watch_list = false
  ∧ ∀ lv c, (lv, SecurityAlert c)
            ∉ logs (detect_anomalies_and_threats w ip latency name).
Proof.
  intros Hd Hne Hc. rewrite Hc. split; [done|]. split; [done|].
  intros lv c. rewrite detect_alert_elem.
  rewrite get_geolocation_outcome in Hd. injection Hd as ->.
  unfold country_alert. simpl. rewrite bool_decide_false, Hc by done.
  apply not_elem_of_nil.
Qed.

Lemma missing_country_no_alert_witness :
  default (PStr "") (({[ "status" := PStr "fail" ]} : gmap string pyval) !! "country")
    = PStr ""
  ∧ py_in (PStr "") watch_list = false
  ∧ ∀ lv c, (lv, SecurityAlert c)
            ∉ logs (detect_anomalies_and_threats no_country_world
                      (Some "10.0.0.5") (Py.Float (dec 7234 3))
                      (Some "10.0.0.5")).
Proof.
  apply (missing_country_no_alert no_country_world (Some "10.0.0.5")).
  - reflexivity.
  - vm_compute. discriminate.
  - vm_compute. reflexivity.
Defined.

(** ** Hop parsing and the loop *)

Lemma scan_lines_hops lines st :
  scan_lines st lines = hs ← hops_of_lines lines; mret (foldl record_hop st hs).
Proof.
  revert st. induction lines as [|line rest IH]; intros st; simpl; [done|].
  destruct (hop_of_line line) as [[h|]|e]; simpl; [| |done].
  - rewrite IH. by destruct (hops_of_lines rest).
  - rewrite IH. by destruct (hops_of_lines rest).
Qed.

Lemma path_foldl hs st :
  path (foldl record_hop st hs) = path st ++ (hop_ip <$> hs).
Proof.
  revert st. induction hs as [|h hs IH]; intros st; simpl.
  - by rewrite app_nil_r.
  - rewrite IH. simpl. by rewrite <- app_assoc.
Qed.

Lemma total_latency_foldl hs st :
  total_latency (foldl record_hop st hs) =
    foldl (λ total h, Py.add total (Py.sum (hop_latencies h)))
          (total_latency st) hs.
Proof.
  revert st. induction hs as [|h hs IH]; intros st; simpl; [done|].
  by rewrite IH.
Qed.

Lemma last_responded_ip_foldl hs st :
  last_responded_ip (foldl record_hop st hs) =
    match last hs with
    | Some h => Some (hop_ip h)
    | None => last_responded_ip st
    end.
Proof.
  revert st. induction hs as [|h hs IH]; intros st; [done|].
  simpl foldl. rewrite IH. destruct hs as [|h' hs]; [done|].
  rewrite last_cons_cons.
  destruct (last (h' :: hs)) eqn:Hlast; [done|].
  by apply last_None in Hlast.
Qed.

Lemma split_from_nonempty s cur f : f ∈ Py.split_from cur s → f ≠ "".
Proof.
  revert cur. induction s as [|c s IH]; intros cur; simpl.
  - destruct cur; simpl; [by intros ?%elem_of_nil|].
    by intros ->%list_elem_of_singleton.
  - destruct (Py.isspace c); [|apply IH].
    destruct cur; simpl; [apply IH|].
    intros [->|?]%elem_of_cons; [done|by eapply IH].
Qed.

Lemma hop_of_line_inv line h :
  hop_of_line line = Ok (Some h) →
  ∃ index fields,
    Py.split line = index :: hop_ip h :: fields
    ∧ hop_ip h ≠ "*"
    ∧ is_valid_ip (hop_ip h) = Ok true
    ∧ read_latencies fields = Ok (hop_latencies h).
Proof.
  unfold hop_of_line.
  destruct (Py.split line) as [|index [|ip fields]]; try done.
  case_bool_decide as Hstar; [|done].
  destruct (is_valid_ip ip) as [[]|] eqn:Hvalid; simpl; try done.
  destruct (read_latencies fields) as [lats|] eqn:Hlats; simpl; [|done].
  intros [= <-]. by exists index, fields.
Qed.

Lemma hop_ip_nonempty line h : hop_of_line line = Ok (Some h) → hop_ip h ≠ "".
Proof.
  intros (index & fields & Hsplit & _)%hop_of_line_inv.
  apply (split_from_nonempty line ""). fold (Py.split line).
  rewrite Hsplit. apply elem_of_cons; right. apply elem_of_cons; by left.
Qed.

Lemma hops_of_lines_nonempty lines hs :
  hops_of_lines lines = Ok hs → Forall (λ h, hop_ip h ≠ "") hs.
Proof.
  revert hs. induction lines as [|line rest IH]; intros hs; simpl.
  - intros [= <-]. constructor.
  - destruct (hop_of_line line) as [[h|]|e] eqn:Hline; simpl; [| |done].
    + destruct (hops_of_lines rest) as [hs'|]; simpl; [|done].
      intros [= <-]. constructor; [by eapply hop_ip_nonempty|by apply IH].
    + destruct (hops_of_lines rest) as [hs'|]; simpl; [|done].
      intros [= <-]. by apply IH.
Qed.

Lemma unresponsive_no_hop line :
  unresponsive line = true → hop_of_line line = Ok None.
Proof.
  unfold unresponsive, hop_of_line.
  destruct (Py.split line) as [|index [|field fields]]; [done|done|].
  case_bool_decide as Hstar; simpl.
  - intros _. by rewrite bool_decide_false by (by intros ?).
  - rewrite bool_decide_true by done.
    by destruct (is_valid_ip field) as [[]|].
Qed.

Lemma unresponsive_lines_no_hops lines :
  forallb unresponsive lines = true → hops_of_lines lines = Ok [].
Proof.
  induction lines as [|line rest IH]; simpl; [done|].
  intros [Hline Hrest]%andb_true_iff.
  by rewrite (unresponsive_no_hop _ Hline), (IH Hrest).
Qed.


(** ** Address validity *)

Lemma octet_ok_true part : octet_ok part = Ok true → octet part = true.
Proof.
  unfold octet_ok, octet, Py.int.
  destruct (Py.isdigit part); [|done].
  destruct (negb (Py.is_empty part) && Py.forallb_str Py.is_decimal part);
    simpl; [|done].
  destruct (String.length part <=? Py.int_max_str_digits); simpl; [|done].
  by intros [= ->].
Qed.

Lemma all_octets_true parts :
  all_octets parts = Ok true → forallb octet parts = true.
Proof.
  induction parts as [|part rest IH]; simpl; [done|].
  destruct (octet_ok part) as [[]|] eqn:Hpart; simpl; try done.
  intros Hrest. by rewrite (octet_ok_true _ Hpart), (IH Hrest).
Qed.

(** What the test of line 57 does guarantee: every part of a recorded
    address is an integer in [0,255]; the number of parts is free. *)
Lemma recorded_parts_in_range line h :
  hop_of_line line = Ok (Some h) →
  forallb octet (Py.split_on "." (hop_ip h)) = true.
Proof.
  intros (index & fields & _ & _ & Hvalid & _)%hop_of_line_inv.
  by apply all_octets_true.
Qed.

Lemma recorded_quad_is_dotted_quad line h :
  hop_of_line line = Ok (Some h) →
  length (Py.split_on "." (hop_ip h)) = 4 →
  dotted_quad (hop_ip h) = true.
Proof.
  intros Hline Hlen. unfold dotted_quad.
  by rewrite (recorded_parts_in_range _ _ Hline), bool_decide_true.
Qed.

(** C8, at the input ["1.2.3.4.5"]: the second field has five parts,
    so it is no dotted quad, yet every part passes the test of line 57
    and the line is recorded as a hop with that address. *)
Theorem five_part_address_recorded :
  Py.split_on "." "1.2.3.4.5" = ["1"; "2"; "3"; "4"; "5"]
  ∧ dotted_quad "1.2.3.4.5" = false
  ∧ is_valid_ip "1.2.3.4.5" = Ok true
  ∧ parse five_part_output =
      Ok [ {| hop_ip := "1.2.3.4.5"; hop_latencies := [dec 10 1] |} ].
Proof. repeat split; by_evaluation. Qed.

(** A second field made of the superscript two passes [isdigit] and
    then fails in [int]: the line raises instead of being skipped. *)
Example superscript_digit_raises :
  hop_of_line (" 1  " +:+ String "178" "") = Raise ValueError.
Proof. reflexivity. Qed.

(** ** The pipeline for one target *)

Lemma resolve_outcome w ip :
  ip ≠ "" → outcome_of (resolve w (Some ip)) = resolved w ip.
Proof.
  intros Hip. unfold resolve, resolved, gethostbyaddr.
  destruct ip; [done|]. simpl. by destruct (reverse_dns w _).
Qed.

Lemma resolve_logs w last_ip : logs (resolve w last_ip) = [].
Proof.
  unfold resolve, gethostbyaddr. destruct last_ip as [ip|]; [|done].
  destruct (negb (Py.is_empty ip)); [|done].
  by destruct (reverse_dns w ip).
Qed.

Lemma subprocess_run_ok w target stdout :
  traceroute_n w target = Exited 0 stdout →
  subprocess_run w target = mret stdout.
Proof. unfold subprocess_run. by intros ->. Qed.

Lemma evaluated_outcome w ip latency name :
  outcome_of (detect_anomalies_and_threats w ip latency name) = evaluated w ip.
Proof. apply detect_outcome. Qed.

Lemma evaluated_raises w ip e : evaluated w ip = Raise e → e = AttributeError.
Proof.
  unfold evaluated, risk_outcome. destruct (truthy _); [|done].
  destruct (located _); by intros [=].
Qed.

Lemma loop_metrics hops (st := foldl record_hop initial_state hops) :
  path st = hop_ip <$> hops
  ∧ last_responded_ip st = hop_ip <$> last hops
  ∧ (if bool_decide (0 < length (path st))
     then Py.truediv (total_latency st) (length (path st))
     else Ok (Py.Int 0)) = Ok (mean_latency hops).
Proof.
  assert (path st = hop_ip <$> hops) as Hpath by apply path_foldl.
  split; [done|]. split.
  - unfold st. rewrite last_responded_ip_foldl. by destruct (last hops).
  - unfold mean_latency, total_of, st.
    rewrite path_foldl, total_latency_foldl.
    cbn [path total_latency initial_state app]. rewrite length_fmap.
    destruct hops as [|h hs]; [done|].
    by rewrite bool_decide_true by (simpl; lia).
Qed.

Lemma perform_traceroute_outcome w target stdout hops :
  traceroute_n w target = Exited 0 stdout →
  parse stdout = Ok hops →
  outcome_of (perform_traceroute w target) =
    match last hops with
    | Some h =>
        name ← resolved w (hop_ip h);
        evaluated w (Some (hop_ip h));;
        mret (Some (outcome_for target hops name))
    | None => evaluated w None;; mret (Some (outcome_for target hops None))
    end.
Proof.
  intros Hrun Hparse. unfold perform_traceroute.
  rewrite outcome_of_try, outcome_of_bind, outcome_of_logging.
  cbn [mbind result_bind].
  rewrite (subprocess_run_ok _ _ _ Hrun).
  rewrite outcome_of_bind. cbn [outcome_of mret M_ret snd mbind result_bind].
  rewrite outcome_of_bind, outcome_of_lift, scan_lines_hops.
  unfold parse in Hparse. rewrite Hparse. cbn [mbind result_bind mret result_ret].
  destruct (loop_metrics hops) as (Hpath & Hlast & Havg).
  set (st := foldl record_hop initial_state hops) in *.
  rewrite outcome_of_bind, outcome_of_lift, Havg.
  cbn [mbind result_bind].
  assert (∀ ip name,
            outcome_of
              (detect_anomalies_and_threats w ip (mean_latency hops) name;;
               mret (Some {| site := target; hop_count := length (path st);
                             avg_latency := mean_latency hops;
                             unique_path_count := size (list_to_set (path st) : gset string);
                             geo_ip_data := Py.join "; " (path st);
                             fqdn := name |}))
            = (evaluated w ip;; mret (Some (outcome_for target hops name))))
    as Hrest.
  { intros ip name. rewrite outcome_of_bind, evaluated_outcome.
    unfold outcome_for. by rewrite Hpath, length_fmap. }
  assert (∀ r : result (option outcome),
            (∀ e, r = Raise e → isinstance e CalledProcessError = false) →
            match r with
            | Ok a => Ok a
            | Raise e =>
                if isinstance e CalledProcessError
                then outcome_of (logging ERROR (TracerouteFailed target);;
                                 mret None : M (option outcome))
                else Raise e
            end = r) as Htry.
  { intros [a|e] He; [done|]. by rewrite (He e eq_refl). }
  rewrite outcome_of_bind, Hlast.
  destruct (last hops) as [h|] eqn:Hh; cbn [fmap option_fmap option_map].
  - rewrite resolve_outcome.
    + unfold resolved.
      destruct (reverse_dns w (hop_ip h)); cbn [mbind result_bind]; try done;
        rewrite Hrest; apply Htry; intros e;
        destruct (evaluated w (Some (hop_ip h))) as [[]|e'] eqn:Hev;
        try done; intros [= <-]; by rewrite (evaluated_raises _ _ _ Hev).
    + apply hops_of_lines_nonempty in Hparse.
      apply last_Some_elem_of in Hh.
      by eapply (proj1 (Forall_forall _ _) Hparse).
  - cbn [resolve outcome_of mret M_ret snd mbind result_bind].
    rewrite Hrest. apply Htry. intros e.
    destruct (evaluated w None) as [[]|e'] eqn:Hev; try done.
    intros [= <-]. by rewrite (evaluated_raises _ _ _ Hev).
Qed.

Lemma perform_traceroute_inv w target stdout hops o :
  traceroute_n w target = Exited 0 stdout →
  parse stdout = Ok hops →
  outcome_of (perform_traceroute w target) = Ok (Some o) →
  ∃ name, o = outcome_for target hops name.
Proof.
  intros Hrun Hparse. rewrite (perform_traceroute_outcome _ _ _ _ Hrun Hparse).
  destruct (last hops) as [h|].
  - destruct (resolved w (hop_ip h)) as [name|]; simpl; [|done].
    destruct (evaluated w _); simpl; [|done]. intros [= <-]. by exists name.
  - destruct (evaluated w _); simpl; [|done]. intros [= <-]. by exists None.
Qed.

(** C6. When the address of the last responsive hop has no reverse
    name (the lookup fails), the resolver's answer is that address and
    nothing of the failure propagates: the pipeline goes on to the
    risk evaluation and ends as that ends, returning an outcome whose
    name is the address. *)
Theorem reverse_dns_failure_falls_back w target stdout hops h :
  traceroute_n w target = Exited 0 stdout →
  parse stdout = Ok hops →
  last hops = Some h →
  reverse_dns w (hop_ip h) = LookupFailed →
  outcome_of (resolve w (Some (hop_ip h))) = Ok (Some (hop_ip h))
  ∧ ∃ o, fqdn o = Some (hop_ip h)
         ∧ outcome_of (perform_traceroute w target) =
             (outcome_of (detect_anomalies_and_threats w (Some (hop_ip h))
                            (avg_latency o) (Some (hop_ip h)));;
              Ok (Some o)).
Proof.
  intros Hrun Hparse Hlast Hdns. split.
  - rewrite resolve_outcome.
    + unfold resolved. by rewrite Hdns.
    + apply hops_of_lines_nonempty in Hparse.
      apply last_Some_elem_of in Hlast.
      by eapply (proj1 (Forall_forall _ _) Hparse).
  - exists (outcome_for target hops (Some (hop_ip h))). split; [done|].
    rewrite (perform_traceroute_outcome _ _ _ _ Hrun Hparse), Hlast.
    unfold resolved. rewrite Hdns, evaluated_outcome. done.
Qed.

Lemma reverse_dns_failure_falls_back_witness :
  outcome_of (resolve (scenario_world "France") (Some "10.0.0.5")) =
    Ok (Some "10.0.0.5")
  ∧ ∃ o, fqdn o = Some "10.0.0.5"
         ∧ outcome_of (perform_traceroute (scenario_world "France") "example.com") =
             (outcome_of (detect_anomalies_and_threats (scenario_world "France")
                            (Some "10.0.0.5") (avg_latency o) (Some "10.0.0.5"));;
              Ok (Some o)).
Proof.
  apply (reverse_dns_failure_falls_back
           (scenario_world "France") "example.com" scenario_output scenario_hops
           {| hop_ip := "10.0.0.5"; hop_latencies := [dec 55 1; dec 56 1] |}).
  - reflexivity.
  - by_evaluation.
  - reflexivity.
  - reflexivity.
Defined.

(** In the scenario's world the risk evaluation returns, and so does
    the pipeline. *)
Example scenario_returns :
  outcome_of (perform_traceroute (scenario_world "France") "example.com") =
    Ok (Some scenario_outcome).
Proof. by_evaluation. Qed.

(** ** Metrics *)

Lemma list_to_set_cons_elem (x : string) (l : list string) :
  x ∈ l → list_to_set (x :: l) = (list_to_set l : gset string).
Proof.
  intros Hx. rewrite list_to_set_cons. apply subseteq_union_1_L.
  by apply singleton_subseteq_l, elem_of_list_to_set.
Qed.

Lemma size_list_to_set_cons_fresh (x : string) (l : list string) :
  x ∉ l → size (list_to_set (x :: l) : gset string) = S (size (list_to_set l : gset string)).
Proof.
  intros Hx. rewrite list_to_set_cons, size_union, size_singleton; [done|].
  apply disjoint_singleton_l. by rewrite elem_of_list_to_set.
Qed.

Lemma size_list_to_set_le (l : list string) :
  size (list_to_set l : gset string) ≤ length l.
Proof.
  induction l as [|x l IH]; [done|].
  destruct (decide (x ∈ l)) as [Hx|Hx].
  - rewrite list_to_set_cons_elem by done. simpl. lia.
  - rewrite size_list_to_set_cons_fresh by done. simpl. lia.
Qed.

Lemma size_list_to_set_NoDup (l : list string) :
  size (list_to_set l : gset string) = length l ↔ NoDup l.
Proof.
  split; [|apply size_list_to_set].
  induction l as [|x l IH]; [constructor|].
  destruct (decide (x ∈ l)) as [Hx|Hx].
  - rewrite list_to_set_cons_elem by done.
    pose proof (size_list_to_set_le l). simpl. lia.
  - rewrite size_list_to_set_cons_fresh by done. simpl.
    intros Hsize. constructor; [done|]. apply IH. lia.
Qed.

(** C1, as amended.  When the trace of a target succeeds and its
    output parses to the hops [hops], an outcome with a positive hop
    count has that count equal to the number of responsive hops, and
    its average latency is the total divided by the hop count, where
    the total adds, in hop order, the sum of each hop's samples and
    every sum adds its samples from left to right, all in floats. *)
Theorem avg_latency_divides_by_hop_count w target stdout hops o :
  traceroute_n w target = Exited 0 stdout →
  parse stdout = Ok hops →
  outcome_of (perform_traceroute w target) = Ok (Some o) →
  0 < hop_count o →
  hop_count o = length hops
  ∧ Py.truediv
      (foldl (λ total h, Py.add total (Py.sum (hop_latencies h)))
             (Py.Int 0) hops)
      (hop_count o) = Ok (avg_latency o).
Proof.
  intros Hrun Hparse Ho Hpos.
  destruct (perform_traceroute_inv _ _ _ _ _ Hrun Hparse Ho) as [name ->].
  simpl in *. split; [done|].
  unfold mean_latency, total_of.
  destruct (length hops); [lia|done].
Qed.

Lemma avg_latency_divides_by_hop_count_witness :
  hop_count scenario_outcome = length scenario_hops
  ∧ Py.truediv
      (foldl (λ total h, Py.add total (Py.sum (hop_latencies h)))
             (Py.Int 0) scenario_hops)
      (hop_count scenario_outcome) = Ok (avg_latency scenario_outcome).
Proof.
  apply (avg_latency_divides_by_hop_count
           (scenario_world "France") "example.com" scenario_output).
  - reflexivity.
  - by_evaluation.
  - by_evaluation.
  - simpl. lia.
Defined.

(** C1, as stated, fails in floats.  For the hops [0.1] and
    [0.1, 1.0] the loop adds 0.1 and 0.1 + 1.0 = 1.1 to the float
    1.2000000000000002, and the pipeline returns the average
    0.6000000000000001.  The sum of the three samples is 1.2, whether
    they are added from left to right, (0.1 + 0.1) + 1.0, or exactly
    and rounded once; divided by the hop count it is 0.6. *)
Lemma flat_sum_differs :
  traceroute_n rounding_world "example.com" = Exited 0 rounding_output
  ∧ parse rounding_output = Ok rounding_hops
  ∧ outcome_of (perform_traceroute rounding_world "example.com") =
      Ok (Some rounding_outcome)
  ∧ 0 < hop_count rounding_outcome
  ∧ avg_latency rounding_outcome =
      Py.Float (S754_finite false 5404319552844596 (-53))
  ∧ Py.truediv (Py.sum (samples rounding_hops))
               (hop_count rounding_outcome) =
      Ok (Py.Float (S754_finite false 5404319552844595 (-53)))
  ∧ Py.truediv (Py.Float (Py.float_of_decimal (1 + 1 + 10) 1))
               (hop_count rounding_outcome) =
      Ok (Py.Float (S754_finite false 5404319552844595 (-53)))
  ∧ Py.truediv (Py.sum (samples rounding_hops))
               (hop_count rounding_outcome) ≠
      Ok (avg_latency rounding_outcome).
Proof.
  split; [reflexivity|]. split; [by_evaluation|]. split; [by_evaluation|].
  split; [simpl; lia|]. split; [by_evaluation|]. split; [by_evaluation|].
  split; [by_evaluation|]. vm_compute. discriminate.
Qed.

(** C9. The count of distinct addresses of an outcome is at most its
    hop count, and the two are equal exactly when no address occurs
    twice among the hops. *)
Theorem unique_hop_count_le_hop_count w target stdout hops o :
  traceroute_n w target = Exited 0 stdout →
  parse stdout = Ok hops →
  outcome_of (perform_traceroute w target) = Ok (Some o) →
  unique_path_count o ≤ hop_count o
  ∧ (unique_path_count o = hop_count o ↔ NoDup (hop_ip <$> hops)).
Proof.
  intros Hrun Hparse Ho.
  destruct (perform_traceroute_inv _ _ _ _ _ Hrun Hparse Ho) as [name ->].
  simpl. rewrite <- (length_fmap hop_ip hops). split.
  - apply size_list_to_set_le.
  - apply size_list_to_set_NoDup.
Qed.

Lemma unique_hop_count_le_hop_count_witness :
  unique_path_count scenario_outcome ≤ hop_count scenario_outcome
  ∧ (unique_path_count scenario_outcome = hop_count scenario_outcome
     ↔ NoDup (hop_ip <$> scenario_hops)).
Proof.
  apply (unique_hop_count_le_hop_count
           (scenario_world "France") "example.com" scenario_output).
  - reflexivity.
  - by_evaluation.
  - by_evaluation.
Defined.




(** What the guard of line 64 does guarantee: when the test of line
    57 rejects every line after the header, the division is not
    reached, and the outcome the pipeline returns after the risk
    evaluation has hop count 0 and average latency 0. *)
Lemma rejected_lines_zero_average w target stdout :
  traceroute_n w target = Exited 0 stdout →
  forallb unresponsive (drop 1 (Py.splitlines stdout)) = true →
  outcome_of (perform_traceroute w target) =
    (outcome_of (detect_anomalies_and_threats w None (Py.Int 0) None);;
     Ok (Some {| site := target; hop_count := 0; avg_latency := Py.Int 0;
                 unique_path_count := 0; geo_ip_data := ""; fqdn := None |})).
Proof.
  intros Hrun Hlines.
  apply unresponsive_lines_no_hops in Hlines.
  by rewrite (perform_traceroute_outcome _ _ _ [] Hrun Hlines), evaluated_outcome.
Qed.

(** C4, at two inputs whose only hop line has no valid address as its
    second field.  The field 12.9 is no dotted quad, yet the line is
    recorded: the outcome has hop count 1 and average latency 3.5.
    The field made of a superscript two is no dotted quad either, and
    the pipeline raises [ValueError] instead of returning an outcome
    with hop count 0. *)
Theorem invalid_address_counted :
  dotted_quad "12.9" = false
  ∧ Py.splitlines two_part_output =
      ["traceroute to example.com (93.184.216.34), 30 hops max";
       " 1  12.9  3.5 ms"]
  ∧ outcome_of (perform_traceroute two_part_world "example.com") =
      Ok (Some {| site := "example.com"; hop_count := 1;
                  avg_latency := Py.Float (dec 35 1);
                  unique_path_count := 1; geo_ip_data := "12.9";
                  fqdn := Some "12.9" |})
  ∧ dotted_quad (String "178" "") = false
  ∧ outcome_of (perform_traceroute superscript_world "example.com") =
      Raise ValueError.
Proof. repeat split; by_evaluation. Qed.

(** ** The batch *)

Lemma timeout_propagates w target :
  traceroute_n w target = StillRunning →
  perform_traceroute w target =
    ([(INFO, StartingTraceroute target)], Raise TimeoutExpired).
Proof. intros Hrun. unfold perform_traceroute, subprocess_run. by rewrite Hrun. Qed.

Lemma nonzero_exit_skipped w target rc stdout :
  traceroute_n w target = Exited rc stdout →
  rc ≠ 0%Z →
  perform_traceroute w target =
    ([(INFO, StartingTraceroute target); (ERROR, TracerouteFailed target)],
     Ok None).
Proof.
  intros Hrun Hrc. unfold perform_traceroute, subprocess_run.
  rewrite Hrun, bool_decide_false by done. reflexivity.
Qed.

(** A future that raised ends the loop with an exception, whatever
    the futures before it returned. *)
Lemma collect_raises futures db :
  Exists (λ future, ∃ e, outcome_of future = Raise e) futures →
  ∃ db' e, collect futures db = (db', Raise e).
Proof.
  intros Hex. revert db.
  induction Hex as [future rest [e He]|future rest _ IH]; intros db; simpl.
  - rewrite He. eauto.
  - destruct (outcome_of future) as [[row|]|e]; eauto.
Qed.

(** Futures that all returned are read to the end: the rows stored are
    the outcomes of those that returned one, in submission order. *)
Lemma collect_returns futures db :
  Forall (λ future, ∃ r, outcome_of future = Ok r) futures →
  collect futures db =
    (db ++ omap (λ future, match outcome_of future with
                           | Ok r => r
                           | Raise _ => None
                           end) futures,
     Ok tt).
Proof.
  intros Hall. revert db.
  induction Hall as [|future rest [r Hr] _ IH]; intros db; simpl.
  - by rewrite app_nil_r.
  - rewrite Hr. destruct r as [row|]; [|apply IH].
    rewrite IH. unfold update_database. by rewrite <- app_assoc.
Qed.

(** Whichever listed target times out, [main] ends with an exception
    and without a report. *)
Lemma timeout_fails_run w target :
  target ∈ TOP_WEBSITES →
  traceroute_n w target = StillRunning →
  reported (main w) = false ∧ ∃ e, ended (main w) = Raise e.
Proof.
  intros Hin Hrun. unfold main.
  destruct (collect_raises (map (perform_traceroute w) TOP_WEBSITES) [])
    as (db & e & ->).
  - apply Exists_exists. exists (perform_traceroute w target). split.
    + apply list_elem_of_In, in_map, list_elem_of_In, Hin.
    + exists TimeoutExpired. by rewrite (timeout_propagates _ _ Hrun).
  - simpl. eauto.
Qed.

(** C2, at a batch in which the sixth target times out: the task
    raises [TimeoutExpired], which no handler catches; [main] re-raises
    it when it reads that future, having stored the five outcomes
    before it and none of the four after it, and renders no report. *)
Theorem timeout_aborts_batch :
  perform_traceroute timeout_world "linkedin.com" =
    ([(INFO, StartingTraceroute "linkedin.com")], Raise TimeoutExpired)
  ∧ site <$> rows (main timeout_world) =
      ["google.com"; "youtube.com"; "facebook.com"; "twitter.com";
       "instagram.com"]
  ∧ reported (main timeout_world) = false
  ∧ ended (main timeout_world) = Raise TimeoutExpired.
Proof. repeat split; vm_compute; reflexivity. Qed.

(** A non-zero exit is handled as the claim says: the target is
    skipped and the other nine outcomes are stored and reported. *)
Example nonzero_exit_keeps_batch :
  perform_traceroute exit_world "linkedin.com" =
    ([(INFO, StartingTraceroute "linkedin.com");
      (ERROR, TracerouteFailed "linkedin.com")], Ok None)
  ∧ site <$> rows (main exit_world) =
      ["google.com"; "youtube.com"; "facebook.com"; "twitter.com";
       "instagram.com"; "wikipedia.org"; "amazon.com"; "yahoo.com";
       "netflix.com"]
  ∧ reported (main exit_world) = true
  ∧ ended (main exit_world) = Ok tt.
Proof. repeat split; vm_compute; reflexivity. Qed.


(** * Further properties *)

(** ** What the parser raises *)

Lemma int_raises s e : Py.int s = Raise e → e = ValueError.
Proof. unfold Py.int. destruct (_ && _); by intros [=]. Qed.

Lemma float_raises s e : Py.float s = Raise e → e = ValueError.
Proof. unfold Py.float. destruct (_ && _); by intros [=]. Qed.

Lemma octet_ok_raises part e : octet_ok part = Raise e → e = ValueError.
Proof.
  unfold octet_ok. destruct (Py.isdigit part); [|done].
  destruct (Py.int part) as [n|e'] eqn:Hint; simpl; [done|].
  intros [= <-]. by eapply int_raises.
Qed.

Lemma all_octets_raises parts e : all_octets parts = Raise e → e = ValueError.
Proof.
  induction parts as [|part rest IH]; simpl; [done|].
  destruct (octet_ok part) as [[]|e'] eqn:Hpart; simpl; [done|done|].
  intros [= <-]. by eapply octet_ok_raises.
Qed.

Lemma read_latencies_raises fields e :
  read_latencies fields = Raise e → e = ValueError.
Proof.
  induction fields as [|lat rest IH]; simpl; [done|].
  destruct (Py.isdigit _); [|done].
  destruct (Py.float lat) as [x|e'] eqn:Hlat; simpl.
  - destruct (read_latencies rest); simpl; [done|]. intros [= <-]. by apply IH.
  - intros [= <-]. by eapply float_raises.
Qed.

Lemma hop_of_line_raises line e : hop_of_line line = Raise e → e = ValueError.
Proof.
  unfold hop_of_line.
  destruct (Py.split line) as [|index [|ip fields]]; [done|done|].
  case_bool_decide; [|done].
  destruct (is_valid_ip ip) as [[]|e'] eqn:Hvalid; simpl; [|done|].
  - destruct (read_latencies fields) as [|e'] eqn:Hlats; simpl; [done|].
    intros [= <-]. by eapply read_latencies_raises.
  - intros [= <-]. by eapply all_octets_raises.
Qed.

Lemma hops_of_lines_raises lines e :
  hops_of_lines lines = Raise e → e = ValueError.
Proof.
  induction lines as [|line rest IH]; simpl; [done|].
  destruct (hop_of_line line) as [h|e'] eqn:Hline; simpl.
  - destruct (hops_of_lines rest); simpl; [done|]. intros [= <-]. by apply IH.
  - intros [= <-]. by eapply hop_of_line_raises.
Qed.

(** ** The cases of [perform_traceroute] *)

Lemma perform_traceroute_parse_raises w target stdout e :
  traceroute_n w target = Exited 0 stdout →
  parse stdout = Raise e →
  outcome_of (perform_traceroute w target) = Raise ValueError.
Proof.
  intros Hrun Hparse. unfold perform_traceroute.
  rewrite outcome_of_try, outcome_of_bind, outcome_of_logging.
  cbn [mbind result_bind].
  rewrite (subprocess_run_ok _ _ _ Hrun).
  rewrite outcome_of_bind. cbn [outcome_of mret M_ret snd mbind result_bind].
  rewrite outcome_of_bind, outcome_of_lift, scan_lines_hops.
  unfold parse in Hparse. rewrite Hparse.
  by rewrite (hops_of_lines_raises _ _ Hparse).
Qed.

Lemma not_started_propagates w target why :
  traceroute_n w target = NotStarted why →
  perform_traceroute w target =
    ([(INFO, StartingTraceroute target)],
     Raise match why with
           | NoSuchFile => FileNotFoundError
           | NotPermitted => PermissionError
           end).
Proof.
  intros Hrun. unfold perform_traceroute, subprocess_run. rewrite Hrun.
  by destruct why.
Qed.

Lemma undecodable_propagates w target :
  traceroute_n w target = Undecodable →
  perform_traceroute w target =
    ([(INFO, StartingTraceroute target)], Raise UnicodeDecodeError).
Proof. intros Hrun. unfold perform_traceroute, subprocess_run. by rewrite Hrun. Qed.

Lemma perform_traceroute_cases w target :
  outcome_of (perform_traceroute w target) =
    match traceroute_n w target with
    | NotStarted NoSuchFile => Raise FileNotFoundError
    | NotStarted NotPermitted => Raise PermissionError
    | Undecodable => Raise UnicodeDecodeError
    | StillRunning => Raise TimeoutExpired
    | Exited rc stdout =>
        if bool_decide (rc = 0%Z) then
          hops ← parse stdout;
          match last hops with
          | Some h =>
              name ← resolved w (hop_ip h);
              evaluated w (Some (hop_ip h));;
              mret (Some (outcome_for target hops name))
          | None =>
              evaluated w None;;
              mret (Some (outcome_for target hops None))
          end
        else Ok None
    end.
Proof.
  destruct (traceroute_n w target) as [why|rc stdout| |] eqn:Hrun.
  - rewrite (not_started_propagates _ _ _ Hrun). by destruct why.
  - case_bool_decide as Hrc.
    + subst rc. destruct (parse stdout) as [hops|e] eqn:Hparse.
      * apply (perform_traceroute_outcome _ _ _ _ Hrun Hparse).
      * rewrite (perform_traceroute_parse_raises _ _ _ _ Hrun Hparse).
        simpl. by rewrite (hops_of_lines_raises _ _ Hparse).
    + by rewrite (nonzero_exit_skipped _ _ _ _ Hrun Hrc).
  - by rewrite (undecodable_propagates _ _ Hrun).
  - by rewrite (timeout_propagates _ _ Hrun).
Qed.


Lemma perform_traceroute_returned w target o :
  outcome_of (perform_traceroute w target) = Ok (Some o) →
  ∃ stdout hops,
    traceroute_n w target = Exited 0 stdout
    ∧ parse stdout = Ok hops
    ∧ ((hops = [] ∧ o = outcome_for target [] None)
       ∨ ∃ h name, last hops = Some h
                   ∧ resolved w (hop_ip h) = Ok (Some name)
                   ∧ o = outcome_for target hops (Some name)).
Proof.
  rewrite perform_traceroute_cases.
  destruct (traceroute_n w target) as [[]|rc stdout| |]; [done|done| |done|done].
  case_bool_decide as Hrc; [subst rc|done].
  destruct (parse stdout) as [hops|e] eqn:Hparse; simpl; [|done].
  intros Ho. exists stdout, hops. split; [done|]. split; [done|].
  destruct (last hops) as [h|] eqn:Hlast.
  - right. exists h.
    destruct (resolved w (hop_ip h)) as [[name|]|e] eqn:Hres; simpl in Ho.
    + exists name. destruct (evaluated w _); simpl in Ho; [|done].
      by inversion Ho.
    + unfold resolved in Hres. by destruct (reverse_dns w (hop_ip h)).
    + done.
  - left. apply last_None in Hlast. subst hops.
    destruct (evaluated w _); simpl in Ho; [|done]. by inversion Ho.
Qed.

(** X1. [perform_traceroute] returns [None] exactly when the
    traceroute process ends with a non-zero return code: never after a
    timeout, and never after a successful trace, whatever its output. *)
Theorem returns_None_iff_nonzero_exit w target :
  outcome_of (perform_traceroute w target) = Ok None
  ↔ ∃ rc stdout, traceroute_n w target = Exited rc stdout ∧ rc ≠ 0%Z.
Proof.
  rewrite perform_traceroute_cases. split.
  - destruct (traceroute_n w target) as [[]|rc stdout| |]; [done|done| |done|done].
    case_bool_decide as Hrc; [subst rc|by eauto].
    destruct (parse stdout) as [hops|e]; simpl; [|done].
    destruct (last hops) as [h|].
    + destruct (resolved w (hop_ip h)); simpl; [|done].
      by destruct (evaluated w _).
    + by destruct (evaluated w _).
  - intros (rc & stdout & -> & Hrc). by rewrite bool_decide_false.
Qed.



(** X3. An outcome has no name exactly when it has no hop: [fqdn] is
    [None] if and only if [hop_count] is 0. *)
Theorem fqdn_None_iff_no_hops w target o :
  outcome_of (perform_traceroute w target) = Ok (Some o) →
  fqdn o = None ↔ hop_count o = 0.
Proof.
  intros (stdout & hops & _ & _ & [[_ ->]|(h & name & Hlast & _ & ->)])
    %perform_traceroute_returned; simpl; [done|].
  split; [done|]. intros Hlen%length_zero_iff_nil. by subst hops.
Qed.

Lemma fqdn_None_iff_no_hops_witness :
  fqdn scenario_outcome = None ↔ hop_count scenario_outcome = 0.
Proof.
  apply (fqdn_None_iff_no_hops (scenario_world "France") "example.com").
  by_evaluation.
Defined.

(** ** Latencies are never negative *)

(** Rounding keeps a mantissa that is not negative so, and a result
    rounded with the positive sign is a zero, a positive float or the
    positive infinity. *)
Lemma shr_1_nonneg mrs : (0 ≤ shr_m mrs)%Z → (0 ≤ shr_m (shr_1 mrs))%Z.
Proof. destruct mrs as [[|[m|m|]|m] r s]; simpl; lia. Qed.

Lemma iter_pos_shr_1_nonneg n mrs :
  (0 ≤ shr_m mrs)%Z → (0 ≤ shr_m (SpecFloat.iter_pos shr_1 n mrs))%Z.
Proof.
  revert mrs. induction n as [n IH|n IH|]; intros mrs Hm; simpl.
  - apply IH, IH, shr_1_nonneg, Hm.
  - apply IH, IH, Hm.
  - apply shr_1_nonneg, Hm.
Qed.

Lemma shr_fexp_nonneg p em m e l :
  (0 ≤ m)%Z → (0 ≤ shr_m (shr_fexp p em m e l).1)%Z.
Proof.
  intros Hm. unfold shr_fexp, shr.
  assert (0 ≤ shr_m (shr_record_of_loc m l))%Z as Hrec
    by (by destruct l as [|[]]).
  destruct (_ - e)%Z; simpl; [done| |done].
  by apply iter_pos_shr_1_nonneg.
Qed.

Lemma round_nearest_even_nonneg m l :
  (0 ≤ m)%Z → (0 ≤ round_nearest_even m l)%Z.
Proof. destruct l as [|[]]; simpl; [|destruct (Z.even m)| |]; lia. Qed.

Lemma binary_round_aux_nonneg p em m e l :
  (0 ≤ m)%Z →
  SFleb (S754_zero false) (binary_round_aux p em false m e l) = true.
Proof.
  intros Hm. unfold binary_round_aux.
  pose proof (shr_fexp_nonneg p em m e l Hm) as H1.
  destruct (shr_fexp p em m e l) as [mrs' e']. simpl in H1.
  pose proof (shr_fexp_nonneg p em _ e' loc_Exact
                (round_nearest_even_nonneg _ (loc_of_shr_record mrs') H1)) as H2.
  destruct (shr_fexp p em _ e' loc_Exact) as [mrs'' e'']. simpl in H2.
  destruct (shr_m mrs''); [done| |lia]. by destruct (_ <=? _)%Z.
Qed.

Lemma binary_normalize_nonneg p em m e :
  (0 ≤ m)%Z →
  SFleb (S754_zero false) (binary_normalize p em m e false) = true.
Proof.
  intros Hm. destruct m as [|m|m]; [done| |lia].
  unfold binary_normalize, binary_round.
  destruct (shl_align _ _ _). by apply binary_round_aux_nonneg.
Qed.

Lemma fadd_nonneg x y :
  SFleb (S754_zero false) x = true →
  SFleb (S754_zero false) y = true →
  SFleb (S754_zero false) (Py.fadd x y) = true.
Proof.
  destruct x as [[]|[]| |[] mx ex], y as [[]|[]| |[] my ey]; try done.
  intros _ _. unfold Py.fadd, SFadd, cond_Zopp.
  by apply binary_normalize_nonneg.
Qed.

Lemma fdiv_nonneg x d :
  SFleb (S754_zero false) x = true →
  SFleb (S754_zero false) (Py.fdiv x (S754_finite false d 0)) = true.
Proof.
  destruct x as [[]|[]| |[] mx ex]; try done.
  intros _. unfold Py.fdiv, SFdiv, SFdiv_core_binary.
  set (m' := match _ with Z0 => Z.pos mx | Z.pos _ => _ | Z.neg _ => 0%Z end).
  assert (0 ≤ m')%Z as Hm'.
  { subst m'. destruct (_ - _ - _)%Z; [lia| |lia]. by apply Z.shiftl_nonneg. }
  pose proof (Z.div_pos m' (Z.pos d) Hm' eq_refl) as Hq.
  unfold Z.div in Hq. destruct (Z.div_eucl m' (Z.pos d)) as [q r].
  by apply binary_round_aux_nonneg.
Qed.

Lemma float_of_decimal_nonneg n k :
  SFleb (S754_zero false) (Py.float_of_decimal n k) = true.
Proof. destruct n; [done| |done]. by apply fdiv_nonneg. Qed.

Lemma float_nonneg s q : Py.float s = Ok q → Py.nonneg (Py.Float q) = true.
Proof.
  unfold Py.float. destruct (negb _ && Py.forallb_str _ _); [|done].
  intros [= <-]. apply float_of_decimal_nonneg.
Qed.

Lemma read_latencies_nonneg fields lats :
  read_latencies fields = Ok lats →
  Forall (λ q, Py.nonneg (Py.Float q) = true) lats.
Proof.
  revert lats. induction fields as [|lat rest IH]; intros lats; simpl.
  - intros [= <-]. constructor.
  - destruct (Py.isdigit _); [|apply IH].
    destruct (Py.float lat) as [x|] eqn:Hx; simpl; [|done].
    destruct (read_latencies rest) as [xs|]; simpl; [|done].
    intros [= <-]. constructor; [by eapply float_nonneg|by apply IH].
Qed.

Lemma to_float_nonneg x :
  Py.nonneg x = true → SFleb (S754_zero false) (Py.to_float x) = true.
Proof.
  destruct x as [z|f]; simpl; [|done].
  intros Hz%Z.leb_le. by apply binary_normalize_nonneg.
Qed.

Lemma add_nonneg x y :
  Py.nonneg x = true → Py.nonneg y = true → Py.nonneg (Py.add x y) = true.
Proof.
  intros Hx Hy.
  assert (Py.nonneg (Py.Float (Py.fadd (Py.to_float x) (Py.to_float y))) = true)
    as Hfloat by (by apply fadd_nonneg; apply to_float_nonneg).
  destruct x as [a|], y as [b|]; try done.
  simpl in *. apply Z.leb_le in Hx, Hy. apply Z.leb_le. lia.
Qed.

Lemma sum_nonneg lats :
  Forall (λ q, Py.nonneg (Py.Float q) = true) lats →
  Py.nonneg (Py.sum lats) = true.
Proof.
  unfold Py.sum. generalize (Py.Int 0) (eq_refl : Py.nonneg (Py.Int 0) = true).
  intros acc Hacc Hall. revert acc Hacc.
  induction Hall as [|x l Hx _ IH]; intros acc Hacc; simpl; [done|].
  by apply IH, add_nonneg.
Qed.

Lemma total_of_nonneg hops :
  Forall (λ h, Forall (λ q, Py.nonneg (Py.Float q) = true) (hop_latencies h))
         hops →
  Py.nonneg (total_of hops) = true.
Proof.
  unfold total_of. generalize (Py.Int 0) (eq_refl : Py.nonneg (Py.Int 0) = true).
  intros acc Hacc Hall. revert acc Hacc.
  induction Hall as [|h hs Hh _ IH]; intros acc Hacc; simpl; [done|].
  by apply IH, add_nonneg, sum_nonneg.
Qed.

Lemma hops_of_lines_Forall (P : hop → Prop) lines hops :
  (∀ line h, hop_of_line line = Ok (Some h) → P h) →
  hops_of_lines lines = Ok hops → Forall P hops.
Proof.
  intros HP. revert hops. induction lines as [|line rest IH]; intros hops; simpl.
  - intros [= <-]. constructor.
  - destruct (hop_of_line line) as [[h|]|] eqn:Hline; simpl; [| |done].
    + destruct (hops_of_lines rest) as [hs|]; simpl; [|done].
      intros [= <-]. constructor; [by eapply HP|by apply IH].
    + destruct (hops_of_lines rest) as [hs|]; simpl; [|done].
      intros [= <-]. by apply IH.
Qed.

(** X4. Every latency sample the parser records is non-negative: a
    field with a sign (or an exponent, or letters) is no sample. *)
Theorem samples_nonneg raw hops :
  parse raw = Ok hops →
  Forall (λ h, Forall (λ q, Py.nonneg (Py.Float q) = true) (hop_latencies h))
         hops.
Proof.
  apply hops_of_lines_Forall. intros line h
    (index & fields & _ & _ & _ & Hlats)%hop_of_line_inv.
  by eapply read_latencies_nonneg.
Qed.

Lemma samples_nonneg_witness :
  Forall (λ h, Forall (λ q, Py.nonneg (Py.Float q) = true) (hop_latencies h))
         scenario_hops.
Proof. apply (samples_nonneg scenario_output). by_evaluation. Defined.

Lemma mean_latency_nonneg hops :
  Forall (λ h, Forall (λ q, Py.nonneg (Py.Float q) = true) (hop_latencies h))
         hops →
  Py.nonneg (mean_latency hops) = true.
Proof.
  intros Hall. unfold mean_latency, Py.truediv.
  destruct (length hops); [done|].
  by apply fdiv_nonneg, to_float_nonneg, total_of_nonneg.
Qed.

(** X5. The average latency of every outcome is non-negative. *)
Theorem avg_latency_nonneg w target o :
  outcome_of (perform_traceroute w target) = Ok (Some o) →
  Py.nonneg (avg_latency o) = true.
Proof.
  intros (stdout & hops & _ & Hparse & [[_ ->]|(h & name & _ & _ & ->)])
    %perform_traceroute_returned; simpl; [done|].
  by eapply mean_latency_nonneg, samples_nonneg.
Qed.

Lemma avg_latency_nonneg_witness :
  Py.nonneg (avg_latency scenario_outcome) = true.
Proof.
  apply (avg_latency_nonneg (scenario_world "France") "example.com").
  by_evaluation.
Defined.

(** ** Plain text always parses *)

Lemma forallb_str_snoc p cur c :
  Py.forallb_str p (Py.snoc cur c) = Py.forallb_str p cur && p c.
Proof.
  unfold Py.snoc. induction cur as [|d cur IH]; simpl.
  - by rewrite andb_true_r.
  - by rewrite IH, andb_assoc.
Qed.

Lemma length_snoc cur c : String.length (Py.snoc cur c) = S (String.length cur).
Proof. unfold Py.snoc. induction cur as [|d cur IH]; simpl; congruence. Qed.

Lemma split_from_pieces p s cur f :
  Py.forallb_str p cur = true → Py.forallb_str p s = true →
  f ∈ Py.split_from cur s →
  piece_of p (String.length cur + String.length s) f.
Proof.
  revert cur. induction s as [|c s IH]; intros cur Hcur; simpl.
  - intros _. destruct (Py.is_empty cur); [by intros ?%elem_of_nil|].
    intros ->%list_elem_of_singleton. split; [done|lia].
  - intros [Hc Hs]%andb_true_iff. destruct (Py.isspace c).
    + destruct (Py.is_empty cur).
      * intros [? ?]%(IH ""); [|done|done]. split; [done|simpl in *; lia].
      * intros [->|[? ?]%(IH "")]%elem_of_cons; [split; [done|lia]| |done|done].
        split; [done|simpl in *; lia].
    + intros [? ?]%(IH (Py.snoc cur c)); [|by rewrite forallb_str_snoc, Hcur|done].
      split; [done|]. rewrite length_snoc in *. lia.
Qed.

Lemma split_on_from_pieces p sep s cur f :
  Py.forallb_str p cur = true → Py.forallb_str p s = true →
  f ∈ Py.split_on_from sep cur s →
  piece_of p (String.length cur + String.length s) f.
Proof.
  revert cur. induction s as [|c s IH]; intros cur Hcur; simpl.
  - intros _ ->%list_elem_of_singleton. split; [done|lia].
  - intros [Hc Hs]%andb_true_iff. destruct (Ascii.eqb c sep).
    + intros [->|[? ?]%(IH "")]%elem_of_cons; [split; [done|lia]| |done|done].
      split; [done|simpl in *; lia].
    + intros [? ?]%(IH (Py.snoc cur c)); [|by rewrite forallb_str_snoc, Hcur|done].
      split; [done|]. rewrite length_snoc in *. lia.
Qed.

Lemma forallb_str_remove_first p c s :
  Py.forallb_str p s = true → Py.forallb_str p (Py.remove_first c s) = true.
Proof.
  induction s as [|d s IH]; simpl; [done|].
  intros [Hd Hs]%andb_true_iff. destruct (Ascii.eqb d c); [done|].
  simpl. by rewrite Hd, IH.
Qed.

Lemma splitlines_from_pieces p n s cur f :
  String.length s ≤ n →
  Py.forallb_str p cur = true → Py.forallb_str p s = true →
  f ∈ Py.splitlines_from cur s → Py.forallb_str p f = true.
Proof.
  revert s cur. induction n as [|n IH]; intros s cur Hlen Hcur.
  - destruct s; [|simpl in Hlen; lia]. simpl. intros _.
    destruct (Py.is_empty cur); [by intros ?%elem_of_nil|].
    by intros ->%list_elem_of_singleton.
  - destruct s as [|c s]; simpl.
    + intros _. destruct (Py.is_empty cur); [by intros ?%elem_of_nil|].
      by intros ->%list_elem_of_singleton.
    + intros [Hc Hs]%andb_true_iff. simpl in Hlen.
      destruct (Py.is_linebreak c).
      * intros [->|Hf]%elem_of_cons; [done|]. revert Hf.
        destruct s as [|d s']; [apply (IH ""); simpl; [lia|done|done]|].
        destruct (_ && _).
        -- apply IH; [simpl in Hlen; lia|done|].
           simpl in Hs. by apply andb_true_iff in Hs as [_ ?].
        -- apply IH; [lia|done|done].
      * apply IH; [lia|by rewrite forallb_str_snoc, Hcur|done].
Qed.

Lemma splitlines_plain raw :
  plain raw = true → Forall (λ line, plain line = true) (Py.splitlines raw).
Proof.
  intros Hraw. apply Forall_forall. intros line Hline.
  by eapply (splitlines_from_pieces _ (String.length raw) raw "").
Qed.

Lemma plain_digit c :
  (Py.code c <? 128)%N = true → Py.isdigit_char c = true → Py.is_decimal c = true.
Proof.
  unfold Py.isdigit_char. intros Hc%N.ltb_lt.
  destruct (Py.is_decimal c); [done|]. simpl.
  intros [[H|H]%orb_true_iff|H]%orb_true_iff; apply N.eqb_eq in H; lia.
Qed.

Lemma plain_digits s :
  plain s = true → Py.forallb_str Py.isdigit_char s = true →
  Py.forallb_str Py.is_decimal s = true.
Proof.
  unfold plain. induction s as [|c s IH]; simpl; [done|].
  intros [Hc Hs]%andb_true_iff [Hd Hds]%andb_true_iff.
  by rewrite (plain_digit _ Hc Hd), IH.
Qed.

Lemma octet_ok_plain part :
  plain part = true → String.length part ≤ Py.int_max_str_digits →
  ∃ b, octet_ok part = Ok b.
Proof.
  intros Hplain Hlen. unfold octet_ok, Py.isdigit, Py.int.
  destruct (negb (Py.is_empty part)) eqn:Hne; simpl; [|by eexists].
  destruct (Py.forallb_str Py.isdigit_char part) eqn:Hdigits; [|by eexists].
  rewrite (plain_digits _ Hplain Hdigits). simpl.
  apply Nat.leb_le in Hlen. rewrite Hlen. simpl. by eexists.
Qed.

Lemma all_octets_plain parts :
  Forall (piece_of (λ c, (Py.code c <? 128)%N) Py.int_max_str_digits) parts →
  ∃ b, all_octets parts = Ok b.
Proof.
  induction 1 as [|part rest [Hplain Hlen] _ [b IH]]; simpl; [by eexists|].
  destruct (octet_ok_plain part Hplain Hlen) as [[] ->]; simpl; by eexists.
Qed.

Lemma float_plain lat :
  plain lat = true → Py.isdigit (Py.remove_first "." lat) = true →
  ∃ x, Py.float lat = Ok x.
Proof.
  intros Hplain. unfold Py.isdigit, Py.float.
  intros [Hne Hdigits]%andb_true_iff. rewrite Hne.
  rewrite (plain_digits _ (forallb_str_remove_first _ _ _ Hplain) Hdigits).
  by eexists.
Qed.

Lemma read_latencies_plain fields :
  Forall (λ f, plain f = true) fields → ∃ lats, read_latencies fields = Ok lats.
Proof.
  induction 1 as [|lat rest Hplain _ [lats IH]]; simpl; [by eexists|].
  destruct (Py.isdigit _) eqn:Hdigit; [|by eexists].
  destruct (float_plain _ Hplain Hdigit) as [x ->]. rewrite IH. by eexists.
Qed.

Lemma hop_of_line_plain line :
  plain line = true → String.length line ≤ Py.int_max_str_digits →
  ∃ h, hop_of_line line = Ok h.
Proof.
  intros Hplain Hlen.
  assert (∀ f, f ∈ Py.split line →
               piece_of (λ c, (Py.code c <? 128)%N) (String.length line) f)
    as Hfields by (intros f; by apply (split_from_pieces _ line "")).
  unfold hop_of_line.
  destruct (Py.split line) as [|index [|ip fields]]; [by eexists|by eexists|].
  case_bool_decide; [|by eexists].
  destruct (Hfields ip) as [Hip Hiplen];
    [apply elem_of_cons; right; apply elem_of_cons; by left|].
  destruct (all_octets_plain (Py.split_on "." ip)) as [[] Hvalid].
  - apply Forall_forall. intros part Hpart.
    destruct (split_on_from_pieces _ "." ip "" part eq_refl Hip Hpart) as [? ?].
    split; [done|]. simpl in *. lia.
  - unfold is_valid_ip. rewrite Hvalid. simpl.
    destruct (read_latencies_plain fields) as [lats ->]; [|by eexists].
    apply Forall_forall. intros f Hf. apply Hfields.
    apply elem_of_cons; right. apply elem_of_cons; by right.
  - unfold is_valid_ip. rewrite Hvalid. by eexists.
Qed.

Lemma hops_of_lines_plain lines :
  Forall (λ line, plain line = true) lines → short_lines lines = true →
  ∃ hops, hops_of_lines lines = Ok hops.
Proof.
  unfold short_lines.
  induction 1 as [|line rest Hplain _ IH]; simpl; [by eexists|].
  intros [Hlen%Nat.leb_le Hrest]%andb_true_iff.
  destruct (hop_of_line_plain _ Hplain Hlen) as [h ->].
  destruct (IH Hrest) as [hops ->]. by eexists.
Qed.

(** X6. Parsing never raises on plain text: when every character of
    the output is below U+0080 and no line is longer than the digit
    bound of [int], every line converts and the parser returns a list
    of hops. *)
Theorem plain_output_parses raw :
  plain raw = true →
  short_lines (Py.splitlines raw) = true →
  ∃ hops, parse raw = Ok hops.
Proof.
  intros Hplain Hshort. unfold parse.
  pose proof (splitlines_plain _ Hplain) as Hlines.
  destruct (Py.splitlines raw) as [|header lines]; [by eexists|].
  simpl in *. apply andb_true_iff in Hshort as [_ Hshort].
  apply hops_of_lines_plain; [by inversion Hlines|done].
Qed.

Lemma plain_output_parses_witness : ∃ hops, parse scenario_output = Ok hops.
Proof.
  apply plain_output_parses.
  - vm_compute. reflexivity.
  - vm_compute. reflexivity.
Defined.

(** ** What a recorded address looks like *)

Lemma split_on_from_chars q sep s cur :
  q sep = true →
  forallb (Py.forallb_str q) (Py.split_on_from sep cur s) = true →
  Py.forallb_str q cur = true ∧ Py.forallb_str q s = true.
Proof.
  intros Hsep. revert cur. induction s as [|c s IH]; intros cur; simpl.
  - rewrite andb_true_r. by intros ->.
  - destruct (Ascii.eqb c sep) eqn:Hc.
    + apply Ascii.eqb_eq in Hc as ->. simpl.
      intros [Hcur [_ Hs]%IH]%andb_true_iff. by rewrite Hsep, Hs.
    + intros [Hcur Hs]%IH. rewrite forallb_str_snoc in Hcur.
      apply andb_true_iff in Hcur as [Hcur Hc']. by rewrite Hc', Hs.
Qed.

Lemma octet_chars part :
  octet part = true → Py.forallb_str address_char part = true.
Proof.
  unfold octet. intros [[_ Hdigits]%andb_true_iff _]%andb_true_iff.
  induction part as [|c part IH]; simpl in *; [done|].
  apply andb_true_iff in Hdigits as [Hc Hpart].
  unfold address_char at 1. by rewrite Hc, IH.
Qed.

Lemma recorded_address_chars line h :
  hop_of_line line = Ok (Some h) →
  Py.forallb_str address_char (hop_ip h) = true.
Proof.
  intros Hparts%recorded_parts_in_range.
  apply (split_on_from_chars address_char "." (hop_ip h) ""); [done|].
  fold (Py.split_on "." (hop_ip h)).
  induction (Py.split_on "." (hop_ip h)) as [|part parts IH]; simpl in *; [done|].
  apply andb_true_iff in Hparts as [Hpart Hparts].
  by rewrite (octet_chars _ Hpart), IH.
Qed.

(** X7. Every address the parser records is made of decimal digits
    and dots only, and each of its dot-separated parts is a non-empty
    run of decimal digits whose value is at most 255. *)
Theorem recorded_addresses_wellformed raw hops :
  parse raw = Ok hops →
  Forall (λ h, Py.forallb_str address_char (hop_ip h) = true
               ∧ forallb octet (Py.split_on "." (hop_ip h)) = true) hops.
Proof.
  apply hops_of_lines_Forall. intros line h Hline. split.
  - by eapply recorded_address_chars.
  - by eapply recorded_parts_in_range.
Qed.

Lemma recorded_addresses_wellformed_witness :
  Forall (λ h, Py.forallb_str address_char (hop_ip h) = true
               ∧ forallb octet (Py.split_on "." (hop_ip h)) = true)
         scenario_hops.
Proof. apply (recorded_addresses_wellformed scenario_output). by_evaluation. Defined.

(** ** Bounds on the metrics *)

Lemma hops_of_lines_length lines hops :
  hops_of_lines lines = Ok hops → length hops ≤ length lines.
Proof.
  revert hops. induction lines as [|line rest IH]; intros hops; simpl.
  - by intros [= <-].
  - destruct (hop_of_line line) as [h|]; simpl; [|done].
    destruct (hops_of_lines rest) as [hs|]; simpl; [|done].
    specialize (IH hs eq_refl).
    destruct h; intros [= <-]; simpl; lia.
Qed.

(** X8. The hop count of an outcome is at most the number of lines
    the loop reads, those of [lines[1:]]: the first line never counts,
    and no line counts twice. *)
Theorem hop_count_le_lines w target stdout o :
  traceroute_n w target = Exited 0 stdout →
  outcome_of (perform_traceroute w target) = Ok (Some o) →
  hop_count o ≤ length (drop 1 (Py.splitlines stdout)).
Proof.
  intros Hrun (stdout' & hops & Hrun' & Hparse & Ho)%perform_traceroute_returned.
  rewrite Hrun in Hrun'. injection Hrun' as <-.
  apply hops_of_lines_length in Hparse.
  destruct Ho as [[-> ->]|(h & name & _ & _ & ->)]; simpl; [lia|done].
Qed.

Lemma hop_count_le_lines_witness :
  hop_count scenario_outcome ≤ length (drop 1 (Py.splitlines scenario_output)).
Proof.
  apply (hop_count_le_lines (scenario_world "France") "example.com").
  - reflexivity.
  - by_evaluation.
Defined.

(** X9. An outcome with at least one hop has at least one distinct
    address: [unique_path_count] is 0 exactly when [hop_count] is. *)
Theorem unique_zero_iff_no_hops w target o :
  outcome_of (perform_traceroute w target) = Ok (Some o) →
  unique_path_count o = 0 ↔ hop_count o = 0.
Proof.
  intros (stdout & hops & _ & _ & [[_ ->]|(h & name & _ & _ & ->)])
    %perform_traceroute_returned; simpl; [done|].
  rewrite size_empty_iff, length_zero_iff_nil.
  destruct hops as [|h' hops]; [done|]. simpl. split; [|done].
  intros Hempty. exfalso. apply (not_elem_of_empty (C:=gset string) (hop_ip h')).
  rewrite <- Hempty. by apply elem_of_union_l, elem_of_singleton.
Qed.

Lemma unique_zero_iff_no_hops_witness :
  unique_path_count scenario_outcome = 0 ↔ hop_count scenario_outcome = 0.
Proof.
  apply (unique_zero_iff_no_hops (scenario_world "France") "example.com").
  by_evaluation.
Defined.

Lemma count_char_app c s1 s2 :
  count_char c (s1 +:+ s2) = count_char c s1 + count_char c s2.
Proof. induction s1 as [|d s1 IH]; simpl; [done|]. rewrite IH. lia. Qed.

Lemma address_no_semicolon s :
  Py.forallb_str address_char s = true → count_char ";" s = 0.
Proof.
  induction s as [|c s IH]; simpl; [done|].
  intros [Hc Hs]%andb_true_iff. rewrite (IH Hs).
  destruct (Ascii.eqb c ";") eqn:Heq; [|done].
  apply Ascii.eqb_eq in Heq as ->. done.
Qed.

Lemma count_semicolons_join ips :
  Forall (λ ip, Py.forallb_str address_char ip = true) ips →
  count_char ";" (Py.join "; " ips) = length ips - 1.
Proof.
  induction 1 as [|ip rest Hip Hrest IH]; [done|].
  destruct rest as [|ip' rest].
  - simpl. by apply address_no_semicolon.
  - change (Py.join "; " (ip :: ip' :: rest))
      with (ip +:+ "; " +:+ Py.join "; " (ip' :: rest)).
    rewrite !count_char_app, IH, (address_no_semicolon _ Hip). simpl. lia.
Qed.

(** X10. The display string [geo_ip_data] of an outcome holds one
    semicolon less than the outcome has hops (none when it has no
    hop): the addresses joined in it never contain one. *)
Theorem geo_ip_data_separators w target o :
  outcome_of (perform_traceroute w target) = Ok (Some o) →
  count_char ";" (geo_ip_data o) = hop_count o - 1.
Proof.
  intros (stdout & hops & _ & Hparse & Ho)%perform_traceroute_returned.
  assert (geo_ip_data o = Py.join "; " (hop_ip <$> hops)
          ∧ hop_count o = length hops) as [-> ->].
  { destruct Ho as [[-> ->]|(h & name & _ & _ & ->)]; by simpl. }
  rewrite count_semicolons_join, length_fmap; [done|].
  apply Forall_fmap. apply recorded_addresses_wellformed in Hparse.
  eapply Forall_impl; [exact Hparse|]. by intros h [? _].
Qed.

Lemma geo_ip_data_separators_witness :
  count_char ";" (geo_ip_data scenario_outcome) = hop_count scenario_outcome - 1.
Proof.
  apply (geo_ip_data_separators (scenario_world "France") "example.com").
  by_evaluation.
Defined.

(** ** What is logged *)

Lemma perform_traceroute_logs_parsed w target stdout hops :
  traceroute_n w target = Exited 0 stdout →
  parse stdout = Ok hops →
  logs (perform_traceroute w target) =
    (INFO, StartingTraceroute target)
      :: match last hops with
         | Some h =>
             match resolved w (hop_ip h) with
             | Ok name =>
                 logs (detect_anomalies_and_threats w (Some (hop_ip h))
                         (mean_latency hops) name)
             | Raise _ => []
             end
         | None =>
             logs (detect_anomalies_and_threats w None (mean_latency hops) None)
         end.
Proof.
  intros Hrun Hparse. unfold perform_traceroute.
  rewrite (subprocess_run_ok _ _ _ Hrun).
  cbn [mbind M_bind mret M_ret logging lift].
  rewrite scan_lines_hops. unfold parse in Hparse. rewrite Hparse.
  cbn [mbind result_bind mret result_ret].
  destruct (loop_metrics hops) as (Hpath & Hlast & Havg).
  set (st := foldl record_hop initial_state hops) in *.
  rewrite Havg, Hlast. clearbody st.
  assert (∀ ip name,
            ∃ l r, detect_anomalies_and_threats w ip (mean_latency hops) name =
                     (l, r)
                   ∧ (r = Ok tt ∨ r = Raise AttributeError)) as Hdetect.
  { intros ip name.
    pose proof (detect_outcome w ip (mean_latency hops) name) as Hout.
    destruct (detect_anomalies_and_threats w ip (mean_latency hops) name)
      as [l [[]|e]]; simpl in Hout; [by eauto|].
    symmetry in Hout. apply evaluated_raises in Hout as ->. by eauto. }
  destruct (last hops) as [h|] eqn:Hh; cbn [fmap option_fmap option_map].
  - assert (resolve w (Some (hop_ip h)) = ([], resolved w (hop_ip h))) as ->.
    { rewrite <- (resolve_logs w (Some (hop_ip h))), <- resolve_outcome.
      - by destruct (resolve _ _).
      - apply hops_of_lines_nonempty in Hparse.
        apply last_Some_elem_of in Hh.
        by eapply (proj1 (Forall_forall _ _) Hparse). }
    unfold resolved. destruct (reverse_dns w (hop_ip h)) as [name| |].
    + cbn [mbind M_bind].
      destruct (Hdetect (Some (hop_ip h)) (Some name))
        as (l & r & Hd & [-> | ->]); rewrite Hd; simpl; by rewrite ?app_nil_r.
    + cbn [mbind M_bind].
      destruct (Hdetect (Some (hop_ip h)) (Some (hop_ip h)))
        as (l & r & Hd & [-> | ->]); rewrite Hd; simpl; by rewrite ?app_nil_r.
    + done.
  - cbn [resolve mbind M_bind mret M_ret].
    destruct (Hdetect None None) as (l & r & Hd & [-> | ->]); rewrite Hd; simpl;
      by rewrite ?app_nil_r.
Qed.

Lemma perform_traceroute_logs_unparsed w target stdout e :
  traceroute_n w target = Exited 0 stdout →
  parse stdout = Raise e →
  logs (perform_traceroute w target) = [(INFO, StartingTraceroute target)].
Proof.
  intros Hrun Hparse. unfold perform_traceroute.
  rewrite (subprocess_run_ok _ _ _ Hrun).
  cbn [mbind M_bind mret M_ret logging lift].
  rewrite scan_lines_hops. unfold parse in Hparse. rewrite Hparse.
  by rewrite (hops_of_lines_raises _ _ Hparse).
Qed.

Lemma perform_traceroute_logs_elem w target r :
  r ∈ logs (perform_traceroute w target) →
  r = (INFO, StartingTraceroute target)
  ∨ (r = (ERROR, TracerouteFailed target)
     ∧ ∃ rc stdout, traceroute_n w target = Exited rc stdout ∧ rc ≠ 0%Z)
  ∨ ∃ ip latency name, r ∈ logs (detect_anomalies_and_threats w ip latency name).
Proof.
  destruct (traceroute_n w target) as [why|rc stdout| |] eqn:Hrun.
  - rewrite (not_started_propagates _ _ _ Hrun). simpl.
    intros ->%list_elem_of_singleton. by left.
  - destruct (decide (rc = 0%Z)) as [->|Hrc].
    + destruct (parse stdout) as [hops|e] eqn:Hparse.
      * rewrite (perform_traceroute_logs_parsed _ _ _ _ Hrun Hparse).
        intros [->|Hr]%elem_of_cons; [by left|]. right; right.
        destruct (last hops) as [h|]; [|by eauto].
        destruct (resolved w (hop_ip h)); [by eauto|by apply elem_of_nil in Hr].
      * rewrite (perform_traceroute_logs_unparsed _ _ _ _ Hrun Hparse).
        intros ->%list_elem_of_singleton. by left.
    + rewrite (nonzero_exit_skipped _ _ _ _ Hrun Hrc). simpl.
      intros [->|Hr]%elem_of_cons; [by left|].
      apply list_elem_of_singleton in Hr as ->. right; left. eauto.
  - rewrite (undecodable_propagates _ _ Hrun). simpl.
    intros ->%list_elem_of_singleton. by left.
  - rewrite (timeout_propagates _ _ Hrun). simpl.
    intros ->%list_elem_of_singleton. by left.
Qed.

(** X11. The error record of a failed trace is in the log of
    [perform_traceroute] exactly when the process ended with a non-zero
    return code; a timeout leaves no such record. *)
Theorem failure_logged_iff_nonzero_exit w target :
  (ERROR, TracerouteFailed target) ∈ logs (perform_traceroute w target)
  ↔ ∃ rc stdout, traceroute_n w target = Exited rc stdout ∧ rc ≠ 0%Z.
Proof.
  split.
  - intros [[=]|[[_ ?]|(ip & lat & name & Hr)]]%perform_traceroute_logs_elem;
      [done|].
    by apply detect_logs_elem in Hr as [[=]|[[=]|[c [=]]]].
  - intros (rc & stdout & Hrun & Hrc).
    rewrite (nonzero_exit_skipped _ _ _ _ Hrun Hrc). simpl.
    apply elem_of_cons; right. by apply list_elem_of_singleton.
Qed.

(** X12. No run of the pipeline logs the threat alert: the threat
    check always answers [False], so the second warning of
    [detect_anomalies_and_threats] is never reached. *)
Theorem threat_alert_never_logged w target lv ip :
  (lv, ThreatDetected ip) ∉ logs (perform_traceroute w target).
Proof.
  intros [[=]|[[[=] _]|(ip' & lat & name & Hr)]]%perform_traceroute_logs_elem.
  by apply detect_logs_elem in Hr as [[=]|[[=]|[c [=]]]].
Qed.

(** X13. A trace that returns an outcome has logged, first, that it
    started and, second, the monitoring record of the risk evaluation,
    which carries the average latency and the name of that outcome. *)
Theorem returned_outcome_was_monitored w target o :
  outcome_of (perform_traceroute w target) = Ok (Some o) →
  ∃ last_ip rest,
    logs (perform_traceroute w target) =
      (INFO, StartingTraceroute target)
        :: (INFO, MonitoringAnomalies last_ip (avg_latency o) (fqdn o))
        :: rest.
Proof.
  intros (stdout & hops & Hrun & Hparse & Ho)%perform_traceroute_returned.
  rewrite (perform_traceroute_logs_parsed _ _ _ _ Hrun Hparse).
  destruct Ho as [[-> ->]|(h & name & -> & -> & ->)]; rewrite detect_logs;
    simpl; eauto.
Qed.

Lemma returned_outcome_was_monitored_witness :
  ∃ last_ip rest,
    logs (perform_traceroute (scenario_world "France") "example.com") =
      (INFO, StartingTraceroute "example.com")
        :: (INFO, MonitoringAnomalies last_ip (avg_latency scenario_outcome)
                    (fqdn scenario_outcome))
        :: rest.
Proof.
  apply (returned_outcome_was_monitored (scenario_world "France") "example.com").
  by_evaluation.
Defined.

(** X14. [get_geolocation] logs its error record exactly when the
    request got no response or the body of a 200 response did not
    decode, and it logs nothing else: a response with another status
    is dropped without a record. *)
Theorem geolocation_failure_logged_iff w ip :
  ((ERROR, GeolocationFailed ip) ∈ logs (get_geolocation w ip)
   ↔ http_get w (geolocation_url ip) = NoResponse
     ∨ http_get w (geolocation_url ip) = Response 200 None)
  ∧ ∀ r, r ∈ logs (get_geolocation w ip) → r = (ERROR, GeolocationFailed ip).
Proof.
  unfold get_geolocation.
  destruct (http_get w (geolocation_url ip)) as [|status [d|]]; simpl.
  - split; [|by intros r ->%list_elem_of_singleton].
    split; [by left|]. intros _. by apply list_elem_of_singleton.
  - case_bool_decide; simpl;
      (split; [|by intros r ?%elem_of_nil]);
      (split; [by intros ?%elem_of_nil|by intros [|]]).
  - case_bool_decide as Hstatus; simpl.
    + subst status. split; [|by intros r ->%list_elem_of_singleton].
      split; [by right|]. intros _. by apply list_elem_of_singleton.
    + split; [|by intros r ?%elem_of_nil].
      split; [by intros ?%elem_of_nil|]. intros [|[=]]; done.
Qed.

(** X15. When the lookup yields the empty object, the risk evaluation
    logs no warning at all. *)
Theorem no_location_no_warning w ip latency name :
  outcome_of (get_geolocation w ip) = Ok (PDict ∅) →
  ∀ ev, (WARNING, ev) ∉ logs (detect_anomalies_and_threats w ip latency name).
Proof.
  rewrite get_geolocation_outcome. intros [= Hloc].
  by apply empty_location_quiet.
Qed.

Lemma no_location_no_warning_witness :
  outcome_of (get_geolocation silent_world None) = Ok (PDict ∅)
  ∧ ∀ ev, (WARNING, ev)
          ∉ logs (detect_anomalies_and_threats silent_world None (Py.Int 0) None).
Proof.
  split; [vm_compute; reflexivity|].
  apply (no_location_no_warning silent_world None).
  vm_compute. reflexivity.
Defined.

(** ** The batch, in general *)

Lemma returned_site w target row :
  outcome_of (perform_traceroute w target) = Ok (Some row) → site row = target.
Proof.
  by intros (stdout & hops & _ & _ & [[_ ->]|(h & name & _ & _ & ->)])
    %perform_traceroute_returned.
Qed.

Lemma collect_returned w targets rest db :
  forallb (λ target, returned (outcome_of (perform_traceroute w target)))
          targets = true →
  collect (map (perform_traceroute w) (targets ++ rest)) db =
    collect (map (perform_traceroute w) rest) (db ++ outcomes_of w targets).
Proof.
  revert db. induction targets as [|target targets IH]; intros db; simpl.
  - by rewrite app_nil_r.
  - intros [Hret Hall]%andb_true_iff.
    destruct (outcome_of (perform_traceroute w target)) as [[row|]|e];
      [| |done].
    + rewrite (IH _ Hall). unfold update_database. by rewrite <- app_assoc.
    + by rewrite (IH _ Hall).
Qed.

(** X16. When no task raises, [main] stores exactly the outcomes of
    the targets whose trace returned one, in the order of
    [TOP_WEBSITES], renders the report and ends normally: a target
    skipped after a non-zero exit costs no other target its row. *)
Theorem batch_without_exception w :
  forallb (λ target, returned (outcome_of (perform_traceroute w target)))
          TOP_WEBSITES = true →
  rows (main w) = outcomes_of w TOP_WEBSITES
  ∧ reported (main w) = true
  ∧ ended (main w) = Ok tt.
Proof.
  intros Hall.
  pose proof (collect_returned w TOP_WEBSITES [] [] Hall) as Hcollect.
  rewrite (app_nil_r TOP_WEBSITES) in Hcollect.
  unfold main. by rewrite Hcollect.
Qed.

Lemma batch_without_exception_witness :
  rows (main exit_world) = outcomes_of exit_world TOP_WEBSITES
  ∧ reported (main exit_world) = true
  ∧ ended (main exit_world) = Ok tt.
Proof. apply batch_without_exception. vm_compute. reflexivity. Defined.

(** X17. When a task raises, [main] ends with the exception of the
    first target (in the order of [TOP_WEBSITES]) whose task raised,
    renders no report, and has stored the outcomes of the targets
    before that one only. *)
Theorem batch_stops_at_first_exception w before target after e :
  TOP_WEBSITES = before ++ target :: after →
  forallb (λ target, returned (outcome_of (perform_traceroute w target)))
          before = true →
  outcome_of (perform_traceroute w target) = Raise e →
  rows (main w) = outcomes_of w before
  ∧ reported (main w) = false
  ∧ ended (main w) = Raise e.
Proof.
  intros Hlist Hbefore Hraise. unfold main. rewrite Hlist.
  rewrite (collect_returned _ _ _ [] Hbefore). simpl. by rewrite Hraise.
Qed.

Lemma batch_stops_at_first_exception_witness :
  rows (main timeout_world) =
    outcomes_of timeout_world
      ["google.com"; "youtube.com"; "facebook.com"; "twitter.com";
       "instagram.com"]
  ∧ reported (main timeout_world) = false
  ∧ ended (main timeout_world) = Raise TimeoutExpired.
Proof.
  apply (batch_stops_at_first_exception timeout_world _ "linkedin.com"
           ["wikipedia.org"; "amazon.com"; "yahoo.com"; "netflix.com"]).
  - reflexivity.
  - vm_compute. reflexivity.
  - vm_compute. reflexivity.
Defined.

Lemma outcomes_of_sites w targets :
  site <$> outcomes_of w targets `sublist_of` targets.
Proof.
  unfold outcomes_of. induction targets as [|target targets IH]; simpl; [done|].
  destruct (outcome_of (perform_traceroute w target)) as [[row|]|e] eqn:Hrow;
    simpl; [|by constructor|by constructor].
  rewrite (returned_site _ _ _ Hrow). by constructor.
Qed.

Lemma collect_rows w targets db :
  ∃ done, (collect (map (perform_traceroute w) targets) db).1 =
            db ++ outcomes_of w done
          ∧ done `prefix_of` targets.
Proof.
  revert db. induction targets as [|target targets IH]; intros db; simpl.
  - exists []. by rewrite app_nil_r.
  - destruct (outcome_of (perform_traceroute w target)) as [[row|]|e] eqn:Hrow.
    + destruct (IH (update_database db [row])) as (done & -> & Hpre).
      exists (target :: done). split; [|by apply prefix_cons].
      unfold outcomes_of, update_database. simpl. fold (outcomes_of w done).
      by rewrite Hrow, <- app_assoc.
    + destruct (IH db) as (done & -> & Hpre).
      exists (target :: done). split; [|by apply prefix_cons].
      unfold outcomes_of. simpl. by rewrite Hrow.
    + exists []. split; [by rewrite app_nil_r|apply prefix_nil].
Qed.

(** X18. Whatever the world answers, the sites of the rows [main]
    stores form a sublist of [TOP_WEBSITES]: rows come in the order of
    the list, no target gets two rows in one run, and no row names a
    site outside the list. *)
Theorem stored_sites_follow_list w :
  site <$> rows (main w) `sublist_of` TOP_WEBSITES.
Proof.
  destruct (collect_rows w TOP_WEBSITES []) as (done & Hrows & Hpre).
  assert (rows (main w) = outcomes_of w done) as ->.
  { unfold main. by destruct (collect _ _) as [db [[]|e]]. }
  destruct Hpre as [later ->].
  apply sublist_inserts_r, outcomes_of_sites.
Qed.

(** ** The loop and the last address *)

Lemma scan_lines_inv lines st :
  scan_lines initial_state lines = Ok st →
  ∃ hops, hops_of_lines lines = Ok hops
          ∧ path st = hop_ip <$> hops
          ∧ total_latency st = total_of hops
          ∧ last_responded_ip st = hop_ip <$> last hops.
Proof.
  rewrite scan_lines_hops.
  destruct (hops_of_lines lines) as [hops|]; simpl; [|done].
  intros [= <-]. exists hops. split; [done|].
  rewrite path_foldl, total_latency_foldl, last_responded_ip_foldl.
  split; [done|]. split; [done|by destruct (last hops)].
Qed.

(** X19. The loop of lines 53-61 keeps its three variables in step:
    when it ends, the last responsive address is the last element of
    the path (none for an empty path), the path has at most one entry
    per line read, and the total latency is not negative. *)
Theorem loop_keeps_last_address lines st :
  scan_lines initial_state lines = Ok st →
  last_responded_ip st = last (path st)
  ∧ length (path st) ≤ length lines
  ∧ Py.nonneg (total_latency st) = true.
Proof.
  intros (hops & Hhops & -> & -> & ->)%scan_lines_inv.
  rewrite fmap_last, length_fmap. split; [done|]. split.
  - by apply hops_of_lines_length.
  - apply total_of_nonneg.
    apply (hops_of_lines_Forall _ lines); [|done].
    intros line h (index & fields & _ & _ & _ & Hlats)%hop_of_line_inv.
    by eapply read_latencies_nonneg.
Qed.

Lemma loop_keeps_last_address_witness :
  last_responded_ip
    {| path := ["192.168.1.1"; "10.0.0.5"];
       total_latency := Py.Float (dec 14468 3);
       last_responded_ip := Some "10.0.0.5" |} =
    last ["192.168.1.1"; "10.0.0.5"]
  ∧ length ["192.168.1.1"; "10.0.0.5"]
    ≤ length (drop 1 (Py.splitlines scenario_output))
  ∧ Py.nonneg (Py.Float (dec 14468 3)) = true.
Proof.
  apply (loop_keeps_last_address (drop 1 (Py.splitlines scenario_output))
           {| path := ["192.168.1.1"; "10.0.0.5"];
              total_latency := Py.Float (dec 14468 3);
              last_responded_ip := Some "10.0.0.5" |}).
  by_evaluation.
Defined.

(** X20. When the resolver has a name for the address of the last
    responsive hop, the outcome the pipeline builds carries that name,
    and the pipeline returns it once the risk evaluation of that
    address has ended; it ends as that evaluation does otherwise. *)
Theorem reverse_dns_success_names_outcome w target stdout hops h name :
  traceroute_n w target = Exited 0 stdout →
  parse stdout = Ok hops →
  last hops = Some h →
  reverse_dns w (hop_ip h) = HostName name →
  outcome_of (resolve w (Some (hop_ip h))) = Ok (Some name)
  ∧ ∃ o, fqdn o = Some name
         ∧ outcome_of (perform_traceroute w target) =
             (outcome_of (detect_anomalies_and_threats w (Some (hop_ip h))
                            (avg_latency o) (Some name));;
              Ok (Some o)).
Proof.
  intros Hrun Hparse Hlast Hdns. split.
  - rewrite resolve_outcome.
    + unfold resolved. by rewrite Hdns.
    + apply hops_of_lines_nonempty in Hparse.
      apply last_Some_elem_of in Hlast.
      by eapply (proj1 (Forall_forall _ _) Hparse).
  - exists (outcome_for target hops (Some name)). split; [done|].
    rewrite (perform_traceroute_outcome _ _ _ _ Hrun Hparse), Hlast.
    unfold resolved. rewrite Hdns. by rewrite evaluated_outcome.
Qed.

Lemma reverse_dns_success_names_outcome_witness :
  outcome_of (resolve named_world (Some "10.0.0.5")) =
    Ok (Some "edge.example.net")
  ∧ ∃ o, fqdn o = Some "edge.example.net"
         ∧ outcome_of (perform_traceroute named_world "example.com") =
             (outcome_of (detect_anomalies_and_threats named_world
                            (Some "10.0.0.5") (avg_latency o)
                            (Some "edge.example.net"));;
              Ok (Some o)).
Proof.
  apply (reverse_dns_success_names_outcome named_world "example.com"
           scenario_output scenario_hops
           {| hop_ip := "10.0.0.5"; hop_latencies := [dec 55 1; dec 56 1] |}).
  - reflexivity.
  - by_evaluation.
  - reflexivity.
  - reflexivity.
Defined.

(** X21. The country alert of a trace that returns an outcome is
    decided by the lookup of the last responsive address, and of the
    literal [None] when the path is empty: the warning naming [c] is in
    the pipeline's log exactly when that lookup located the address in
    [c] and [c] is "China" or "Russia". *)
Theorem alert_follows_last_address w target stdout hops o c :
  traceroute_n w target = Exited 0 stdout →
  parse stdout = Ok hops →
  outcome_of (perform_traceroute w target) = Ok (Some o) →
  (WARNING, SecurityAlert c) ∈ logs (perform_traceroute w target)
  ↔ (∃ d, located (http_get w (geolocation_url (hop_ip <$> last hops))) =
            PDict d
          ∧ d !! "country" = Some c)
    ∧ (c = PStr "China" ∨ c = PStr "Russia").
Proof.
  intros Hrun Hparse Ho.
  rewrite (perform_traceroute_logs_parsed _ _ _ _ Hrun Hparse).
  rewrite (perform_traceroute_outcome _ _ _ _ Hrun Hparse) in Ho.
  rewrite elem_of_cons.
  assert (∀ ip latency name,
            (WARNING, SecurityAlert c)
              ∈ logs (detect_anomalies_and_threats w ip latency name)
            ↔ (∃ d, located (http_get w (geolocation_url ip)) = PDict d
                    ∧ d !! "country" = Some c)
              ∧ (c = PStr "China" ∨ c = PStr "Russia")) as Hdetect.
  { intros ip latency name. rewrite detect_alert_elem, country_alert_elem.
    split.
    - intros (c' & d & [= <-] & ? & ? & ?); eauto.
    - intros [(d & ? & ?) ?]. exists c, d. eauto. }
  destruct (last hops) as [h|]; simpl.
  - destruct (resolved w (hop_ip h)) as [name|]; [|done].
    rewrite <- Hdetect. split; [by intros [[=]|?]|by right].
  - rewrite <- Hdetect. split; [by intros [[=]|?]|by right].
Qed.

Lemma alert_follows_last_address_witness :
  (WARNING, SecurityAlert (PStr "Russia"))
    ∈ logs (perform_traceroute (scenario_world "Russia") "example.com")
  ↔ (∃ d, located (http_get (scenario_world "Russia")
                     (geolocation_url (hop_ip <$> last scenario_hops))) =
            PDict d
          ∧ d !! "country" = Some (PStr "Russia"))
    ∧ (PStr "Russia" = PStr "China" ∨ PStr "Russia" = PStr "Russia").
Proof.
  apply (alert_follows_last_address (scenario_world "Russia") "example.com"
           scenario_output scenario_hops scenario_outcome).
  - reflexivity.
  - by_evaluation.
  - by_evaluation.
Defined.
